(** * ArithmeticOperation: a command-line calculator over Python floats

    A shallow embedding of [PythonBasics/ArithmeticOperation.py] and the
    properties its specification states about it, followed by further
    properties that the code shows.

    Numbers are IEEE-754 binary64 values, which is what a Python [float]
    is: they are modelled by Rocq's primitive [float], whose operations
    are specified by [Prim2SF] and the [FloatAxioms].  Exceptions are
    explicit results, standard input is a list of what each [input()]
    call meets, and standard output and standard error are a list of
    events. *)

From Stdlib Require Import ZArith Floats Bool List String Ascii Lia.
From Stdlib Require Import DecimalString DecimalPos.
Import ListNotations.

#[local] Set Warnings "-inexact-float".
#[local] Open Scope Z_scope.

(** ** Exceptions and results *)

(** The exceptions the program can meet, each with the text [str(e)]
    gives. *)
Inductive exn : Type :=
| ZeroDivisionError (msg : string)
| ValueError (msg : string)
| OverflowError (msg : string)
| TypeError (msg : string)
| KeyError (msg : string)
| EOFError
| KeyboardInterrupt.

Definition exn_message (e : exn) : string :=
  match e with
  | ZeroDivisionError m | ValueError m | OverflowError m | TypeError m
  | KeyError m => m
  | EOFError | KeyboardInterrupt => EmptyString
  end.

(** A computation that returns a value or raises. *)
Inductive res (A : Type) : Type :=
| Ok (a : A)
| Raise (e : exn).
Arguments Ok {A} a.
Arguments Raise {A} e.

Definition bind {A B : Type} (r : res A) (k : A -> res B) : res B :=
  match r with
  | Ok a => k a
  | Raise e => Raise e
  end.

Notation "x <- r ;; k" := (bind r (fun x => k))
  (at level 61, r at next level, right associativity).

(** ** The string built-ins the program calls

    A text is a [string] of ASCII characters. *)

Module PyStr.

Definition code (c : ascii) : nat := nat_of_ascii c.

(** [str.isspace] on the ASCII range: TAB, LF, VT, FF, CR, the four
    separators FS, GS, RS, US, and the space. *)
Definition isspace (c : ascii) : bool :=
  let n := code c in
  (((9 <=? n) && (n <=? 13)) || ((28 <=? n) && (n <=? 32)))%nat.

Definition isdigit (c : ascii) : bool :=
  let n := code c in ((48 <=? n) && (n <=? 57))%nat.

Definition to_lower (c : ascii) : ascii :=
  let n := code c in
  if ((65 <=? n) && (n <=? 90))%nat then ascii_of_nat (n + 32) else c.

Fixpoint lstrip (cs : list ascii) : list ascii :=
  match cs with
  | c :: cs' => if isspace c then lstrip cs' else cs
  | [] => []
  end.

Definition rstrip (cs : list ascii) : list ascii := rev (lstrip (rev cs)).

(** [s.strip()] *)
Definition strip (s : string) : string :=
  string_of_list_ascii (rstrip (lstrip (list_ascii_of_string s))).

(** [s.split()]: the maximal runs of characters that are not
    whitespace; [word] holds the current run, reversed. *)
Fixpoint split_from (cs word : list ascii) : list string :=
  match cs with
  | [] =>
      match word with
      | [] => []
      | _ => [string_of_list_ascii (rev word)]
      end
  | c :: cs' =>
      if isspace c then
        match word with
        | [] => split_from cs' []
        | _ => string_of_list_ascii (rev word) :: split_from cs' []
        end
      else split_from cs' (c :: word)
  end.

Definition split (s : string) : list string :=
  split_from (list_ascii_of_string s) [].

(** [s.lower()] *)
Definition lower (s : string) : string :=
  string_of_list_ascii (map to_lower (list_ascii_of_string s)).

(** [c in s] for a one-character string [c]. *)
Definition contains (c : ascii) (s : string) : bool :=
  existsb (Ascii.eqb c) (list_ascii_of_string s).

Definition quote : ascii := ascii_of_nat 39.
Definition dquote : ascii := ascii_of_nat 34.
Definition backslash : ascii := ascii_of_nat 92.

Definition hex_digit (n : nat) : ascii :=
  if (n <? 10)%nat then ascii_of_nat (48 + n) else ascii_of_nat (87 + n).

(** One character of [repr(s)] inside the quotes [q]. *)
Definition repr_char (q c : ascii) : list ascii :=
  let n := code c in
  if Ascii.eqb c q || Ascii.eqb c backslash then [backslash; c]
  else if (n =? 9)%nat then [backslash; "t"%char]
  else if (n =? 10)%nat then [backslash; "n"%char]
  else if (n =? 13)%nat then [backslash; "r"%char]
  else if ((n <? 32) || (n =? 127))%nat then
    [backslash; "x"%char; hex_digit (n / 16); hex_digit (n mod 16)]
  else [c].

(** [repr(s)], the [{s!r}] of an f-string: single quotes, unless the
    text holds a single quote and no double quote. *)
Definition repr (s : string) : string :=
  let cs := list_ascii_of_string s in
  let q :=
    if existsb (Ascii.eqb quote) cs && negb (existsb (Ascii.eqb dquote) cs)
    then dquote else quote in
  string_of_list_ascii (q :: flat_map (repr_char q) cs ++ [q]).

(** [str(n)] of an integer. *)
Definition of_int (n : Z) : string := NilZero.string_of_int (Z.to_int n).

End PyStr.


(** ** The numeric built-ins the program calls *)

Module PyNum.

(** *** Conversions between integers and floats *)

(** [float(n)] of an integer [n]: the nearest float, ties to even;
    an integer beyond the largest float raises. *)
Definition int_to_float (n : Z) : res float :=
  let x := SF2Prim (binary_normalize prec emax n 0 false) in
  if is_infinity x
  then Raise (OverflowError "int too large to convert to float")
  else Ok x.

(** The integer nearest to [m * 2^e], ties to even, for [0 <= m]. *)
Definition round_half_even (m e : Z) : Z :=
  if 0 <=? e then m * 2 ^ e
  else
    let d := 2 ^ (- e) in
    let q := m / d in
    match 2 * (m mod d) ?= d with
    | Lt => q
    | Gt => q + 1
    | Eq => if Z.even q then q else q + 1
    end.

(** [round(x)] with no [ndigits]: an [int]; it raises on an infinity
    and on NaN. *)
Definition round (x : float) : res Z :=
  match Prim2SF x with
  | S754_nan => Raise (ValueError "cannot convert float NaN to integer")
  | S754_infinity _ =>
      Raise (OverflowError "cannot convert float infinity to integer")
  | S754_zero _ => Ok 0
  | S754_finite s m e => Ok (cond_Zopp s (round_half_even (Zpos m) e))
  end.

(** [x - n] for a float [x] and an integer [n]: the integer is
    converted first. *)
Definition sub_int (x : float) (n : Z) : res float :=
  y <- int_to_float n ;; Ok (x - y)%float.

(** *** Division and remainder *)

(** [v / w] on floats.  The operator raises on a zero divisor, so an
    infinity or a NaN never comes out of a division by zero. *)
Definition float_div (v w : float) : res float :=
  if is_zero w then Raise (ZeroDivisionError "float division by zero")
  else Ok (v / w)%float.

(** C's [fmod]: the remainder of the division truncated towards zero.
    It is exact, and takes the sign of [x]. *)
Definition fmod (x y : float) : float :=
  match Prim2SF x, Prim2SF y with
  | S754_nan, _ | _, S754_nan => nan
  | S754_infinity _, _ => nan
  | _, S754_zero _ => nan
  | _, S754_infinity _ => x
  | S754_zero _, _ => x
  | S754_finite sx mx ex, S754_finite _ my ey =>
      let e := Z.min ex ey in
      let r := Z.rem (Zpos mx * 2 ^ (ex - e)) (Zpos my * 2 ^ (ey - e)) in
      SF2Prim (binary_normalize prec emax (cond_Zopp sx r) e sx)
  end.

(** [copysign(0.0, w)] *)
Definition zero_signed_as (w : float) : float :=
  if get_sign w then PrimFloat.neg_zero else PrimFloat.zero.

(** [v % w] on floats: [fmod], moved by [w] when its sign is not the
    sign of [w]. *)
Definition float_rem (v w : float) : res float :=
  if is_zero w then Raise (ZeroDivisionError "float modulo")
  else
    let m := fmod v w in
    if negb (is_zero m) then
      if xorb (w <? 0)%float (m <? 0)%float then Ok (m + w)%float else Ok m
    else Ok (zero_signed_as w).

(** *** Exponentiation *)

(** What [v ** w] may return: a float, or a complex number (a negative
    base with a fractional exponent). *)
Inductive value : Type :=
| VFloat (x : float)
| VComplex (re im : float).

(** The two functions of the C library that [**] ends in, each with the
    check of the range error that follows it.  Their results are the
    platform's and are not modelled: [pow] is called on a finite
    positive base other than 1 with a finite non-zero exponent, and
    gives a float or an [OverflowError]; [cpow] is called on a finite
    negative base with a finite fractional exponent, and gives the two
    parts of a complex number or an [OverflowError]. *)
Record Libm : Type := {
  pow : float -> float -> res float;
  cpow : float -> float -> res (float * float)
}.

(** C's [floor]. *)
Definition floor (x : float) : float :=
  match Prim2SF x with
  | S754_finite s m e =>
      if 0 <=? e then x
      else
        SF2Prim
          (binary_normalize prec emax (cond_Zopp s (Zpos m) / 2 ^ (- e)) 0 s)
  | _ => x
  end.

Definition is_odd_integer (x : float) : bool :=
  (fmod (abs x) 2 =? 1)%float.

(** [v ** w] on floats.  The cases with a zero, an infinity or a NaN
    are decided before the C library is called. *)
Definition float_pow (lm : Libm) (v w : float) : res value :=
  if is_zero w then Ok (VFloat 1)
  else if is_nan v then Ok (VFloat v)
  else if is_nan w then Ok (VFloat (if (v =? 1)%float then 1%float else w))
  else if is_infinity w then
    let a := abs v in
    if (a =? 1)%float then Ok (VFloat 1)
    else if Bool.eqb (0 <? w)%float (1 <? a)%float then Ok (VFloat (abs w))
    else Ok (VFloat 0)
  else if is_infinity v then
    let odd := is_odd_integer w in
    if (0 <? w)%float then Ok (VFloat (if odd then v else abs v))
    else Ok (VFloat (if odd then zero_signed_as v else 0%float))
  else if is_zero v then
    if (w <? 0)%float
    then Raise (ZeroDivisionError "0.0 cannot be raised to a negative power")
    else Ok (VFloat (if is_odd_integer w then v else 0%float))
  else if (v <? 0)%float && negb (w =? floor w)%float then
    z <- cpow lm v w ;; Ok (VComplex (fst z) (snd z))
  else
    let negate := (v <? 0)%float && is_odd_integer w in
    let a := abs v in
    if (a =? 1)%float then Ok (VFloat (if negate then (-1)%float else 1%float))
    else x <- pow lm a w ;; Ok (VFloat (if negate then (- x)%float else x)).

(** *** Parsing numbers *)

Definition chars (s : string) : list ascii := list_ascii_of_string s.

Definition underscore : ascii := "_"%char.

(** A numeric literal without its underscores; each underscore must
    stand between two digits.  [prev] is the character before [cs]. *)
Fixpoint drop_underscores (prev : option ascii) (cs : list ascii)
  : option (list ascii) :=
  match cs with
  | [] => Some []
  | c :: cs' =>
      if Ascii.eqb c underscore then
        match prev, cs' with
        | Some p, n :: _ =>
            if PyStr.isdigit p && PyStr.isdigit n
            then drop_underscores (Some c) cs'
            else None
        | _, _ => None
        end
      else option_map (cons c) (drop_underscores (Some c) cs')
  end.

Definition split_sign (cs : list ascii) : bool * list ascii :=
  match cs with
  | c :: cs' =>
      if Ascii.eqb c "-"%char then (true, cs')
      else if Ascii.eqb c "+"%char then (false, cs')
      else (false, cs)
  | [] => (false, [])
  end.

(** The value of a run of decimal digits, most significant first. *)
Definition digits_value (ds : list ascii) : Z :=
  fold_left (fun acc d => 10 * acc + (Z.of_nat (PyStr.code d) - 48)) ds 0.

(** The longest prefix of digits, and what follows it. *)
Fixpoint take_digits (cs : list ascii) : list ascii * list ascii :=
  match cs with
  | c :: cs' =>
      if PyStr.isdigit c
      then let '(ds, rest) := take_digits cs' in (c :: ds, rest)
      else ([], cs)
  | [] => ([], [])
  end.

Definition is_nil {A : Type} (l : list A) : bool :=
  match l with [] => true | _ => false end.

(** [int(s)] of a string, in base 10: surrounding whitespace, a sign,
    then digits. *)
Definition int_of_string (s : string) : res Z :=
  let bad :=
    Raise (ValueError ("invalid literal for int() with base 10: "
                         ++ PyStr.repr s)) in
  let '(neg, body) :=
    split_sign (PyStr.rstrip (PyStr.lstrip (chars s))) in
  match drop_underscores None body with
  | Some ds =>
      if negb (is_nil ds) && forallb PyStr.isdigit ds
      then Ok (cond_Zopp neg (digits_value ds))
      else bad
  | None => bad
  end.

(** The decimal literal [cs]: digits, an optional point and digits, an
    optional exponent.  It yields the digits as an integer [m] and the
    power of ten [e] such that the literal denotes [m * 10^e]. *)
Definition scan_decimal (cs : list ascii) : option (Z * Z) :=
  let '(ip, r1) := take_digits cs in
  let '(fp, r2) :=
    match r1 with
    | c :: r => if Ascii.eqb c "."%char then take_digits r else ([], r1)
    | [] => ([], [])
    end in
  if is_nil (ip ++ fp) then None
  else
    let m := digits_value (ip ++ fp) in
    let shift := Z.of_nat (List.length fp) in
    match r2 with
    | [] => Some (m, - shift)
    | c :: r =>
        if Ascii.eqb (PyStr.to_lower c) "e"%char then
          let '(neg, r') := split_sign r in
          let '(ds, r3) := take_digits r' in
          if negb (is_nil ds) && is_nil r3
          then Some (m, cond_Zopp neg (digits_value ds) - shift)
          else None
        else None
    end.

(** The float nearest to [(-1)^neg * m * 10^e], ties to even, for
    [0 <= m]; beyond the largest float it is an infinity. *)
Definition decimal_to_float (neg : bool) (m e : Z) : float :=
  match m with
  | Zpos p =>
      if 0 <=? e
      then SF2Prim (binary_normalize prec emax (cond_Zopp neg (m * 10 ^ e)) 0 neg)
      else SF2Prim (SFdiv prec emax (S754_finite neg p 0)
                      (S754_finite false (Z.to_pos (10 ^ (- e))) 0))
  | _ => if neg then PrimFloat.neg_zero else PrimFloat.zero
  end.

(** [float(s)] of a string: surrounding whitespace, a sign, then
    [inf], [infinity] or [nan] in any case, or a decimal literal. *)
Definition float_of_string (s : string) : res float :=
  let bad :=
    Raise (ValueError ("could not convert string to float: "
                         ++ PyStr.repr s)) in
  match drop_underscores None (chars s) with
  | None => bad
  | Some cs =>
      let '(neg, body) := split_sign (PyStr.rstrip (PyStr.lstrip cs)) in
      let word := string_of_list_ascii (map PyStr.to_lower body) in
      if String.eqb word "inf" || String.eqb word "infinity"
      then Ok (if neg then neg_infinity else infinity)
      else if String.eqb word "nan" then Ok nan
      else
        match scan_decimal body with
        | Some (m, e) => Ok (decimal_to_float neg m e)
        | None => bad
        end
  end.

End PyNum.

(** ** The operations (ArithmeticOperation.py, lines 21-50) *)

Import PyNum.

(** [sum(values)], as the library reference states it: the additions
    run from left to right, starting from the integer 0, which the first
    addition converts to [0.0].  (An interpreter may carry a
    compensation term through a sum of floats for a more accurate last
    bit; the sum modelled is the plain one.) *)
Definition add (values : list float) : float :=
  fold_left PrimFloat.add values 0%float.

(** [functools.reduce(operator.sub, rest, first)] *)
Definition subtract (first : float) (rest : list float) : float :=
  fold_left PrimFloat.sub rest first.

(** [functools.reduce(operator.mul, values, 1.0)] *)
Definition multiply (values : list float) : float :=
  fold_left PrimFloat.mul values 1%float.

(** The loop of [divide]: [result] is the quotient so far, [rest] the
    divisors still to come.  The test [r == 0] stands before the
    division. *)
Fixpoint divide_loop (result : float) (rest : list float) : res float :=
  match rest with
  | [] => Ok result
  | r :: rest' =>
      if is_zero r then Raise (ZeroDivisionError "Division by zero")
      else q <- float_div result r ;; divide_loop q rest'
  end.

Definition divide (first : float) (rest : list float) : res float :=
  divide_loop first rest.

Definition power (lm : Libm) (base exponent : float) : res value :=
  float_pow lm base exponent.

Definition modulo (a b : float) : res float :=
  if is_zero b then Raise (ZeroDivisionError "Modulo by zero")
  else float_rem a b.

(** ** The registry (lines 53-60) *)

(** The six functions, as the values the registry holds. *)
Inductive func : Type :=
| Add | Subtract | Multiply | Divide | Power | Modulo.

(** [OP_MAP], in the order the dictionary was written. *)
Definition OP_MAP : list (string * (func * string)) :=
  [ ("add", (Add, "Add all numbers"));
    ("sub", (Subtract, "Subtract subsequent numbers from the first"));
    ("mul", (Multiply, "Multiply all numbers"));
    ("div", (Divide, "Sequentially divide the first by the rest"));
    ("pow", (Power, "Raise first number to the power of the second"));
    ("mod", (Modulo, "Modulo (remainder) of two numbers")) ]%string.

(** [OP_MAP.get(op)] *)
Definition lookup (op : string) : option (func * string) :=
  option_map snd (find (fun entry => String.eqb (fst entry) op) OP_MAP).

(** [op in OP_MAP] *)
Definition known (op : string) : bool :=
  match lookup op with Some _ => true | None => false end.

(** [op in (a, b)] *)
Definition one_of (op a b : string) : bool :=
  String.eqb op a || String.eqb op b.

(** The [TypeError] of a call that leaves the one required parameter
    [first] unbound. *)
Definition missing_first (name : string) : exn :=
  TypeError (name ++ "() missing 1 required positional argument: 'first'").

(** The [TypeError] of a call with [given] positional arguments, other
    than two, to a function of the two parameters [p1] and [p2]. *)
Definition not_two (name p1 p2 : string) (given : nat) : exn :=
  match given with
  | O =>
      TypeError (name ++ "() missing 2 required positional arguments: '"
                   ++ p1 ++ "' and '" ++ p2 ++ "'")
  | S O =>
      TypeError (name ++ "() missing 1 required positional argument: '"
                   ++ p2 ++ "'")
  | _ =>
      TypeError (name ++ "() takes 2 positional arguments but "
                   ++ PyStr.of_int (Z.of_nat given) ++ " were given")
  end.

(** The call of [f] on the unpacked [nums]: the numbers are bound to
    the parameters of the function; a count the signature does not admit
    raises [TypeError]. *)
Definition call (lm : Libm) (f : func) (nums : list float) : res value :=
  match f, nums with
  | Add, _ => Ok (VFloat (add nums))
  | Subtract, first :: rest => Ok (VFloat (subtract first rest))
  | Subtract, [] => Raise (missing_first "subtract")
  | Multiply, _ => Ok (VFloat (multiply nums))
  | Divide, first :: rest => x <- divide first rest ;; Ok (VFloat x)
  | Divide, [] => Raise (missing_first "divide")
  | Power, [base; exponent] => power lm base exponent
  | Power, _ => Raise (not_two "power" "base" "exponent" (List.length nums))
  | Modulo, [a; b] => x <- modulo a b ;; Ok (VFloat x)
  | Modulo, _ => Raise (not_two "modulo" "a" "b" (List.length nums))
  end.

(** ** Converting the tokens (lines 70-81) *)

(** What [nums] holds before the last line of [_to_floats]. *)
Inductive number : Type :=
| NInt (n : Z)
| NFloat (x : float).

(** The body of the [try]: a token with a point or an [e] goes to
    [float], any other to [int]. *)
Definition to_number (s : string) : res number :=
  if PyStr.contains "."%char s || PyStr.contains "e"%char (PyStr.lower s)
  then x <- float_of_string s ;; Ok (NFloat x)
  else n <- int_of_string s ;; Ok (NInt n).

(** The loop: a [ValueError] of the conversion is raised again with the
    program's own text, which shows the token. *)
Fixpoint to_numbers (strs : list string) : res (list number) :=
  match strs with
  | [] => Ok []
  | s :: strs' =>
      match to_number s with
      | Ok n => ns <- to_numbers strs' ;; Ok (n :: ns)
      | Raise (ValueError _) =>
          Raise (ValueError ("Invalid numeric value: " ++ PyStr.repr s))
      | Raise e => Raise e
      end
  end.

(** [float(x)] *)
Definition float_of_number (x : number) : res float :=
  match x with
  | NInt n => int_to_float n
  | NFloat x => Ok x
  end.

(** [[float(x) for x in nums]] *)
Fixpoint floats_of (nums : list number) : res (list float) :=
  match nums with
  | [] => Ok []
  | x :: nums' =>
      y <- float_of_number x ;; ys <- floats_of nums' ;; Ok (y :: ys)
  end.

Definition _to_floats (strs : list string) : res (list float) :=
  nums <- to_numbers strs ;; floats_of nums.

(** ** The command line (lines 84-140) *)

(** What [parse_args] hands to [main].  The parsing itself is the
    [argparse] library's: it leaves [operation] unset when the command
    line has no positional argument, and otherwise accepts only a key of
    [OP_MAP] for it. *)
Record Namespace : Type := {
  operation : option string;
  numbers : list string
}.

(** What one call of [input()] meets on standard input. *)
Inductive input_event : Type :=
| Line (s : string)
| EndOfInput
| Interrupt.

(** What [print] writes: a text, or the [repr] of a float, which is kept
    as the float it shows. *)
Inductive text : Type :=
| Str (s : string)
| FloatRepr (x : float).

(** What the program writes: a line on standard output, the prompt of an
    [input()] (on standard output, with no line end), a line on standard
    error. *)
Inductive event : Type :=
| Stdout (t : text)
| Prompt (s : string)
| Stderr (s : string).

(** How [main] ends: it returns the exit code, or an exception leaves
    it. *)
Inductive outcome : Type :=
| Return (code : Z)
| Uncaught (e : exn).

(** The exit status of the process: [raise SystemExit(main())] exits
    with what [main] returned, and an exception that leaves [main] ends
    the interpreter with status 1 after a traceback on standard error. *)
Definition exit_status (o : outcome) : Z :=
  match o with
  | Return code => code
  | Uncaught _ => 1
  end.

(** [input(prompt)]: the prompt is written, then a line is read.  An
    exhausted input is an end of input. *)
Definition input (prompt : string) (stdin : list input_event)
  : list event * res string * list input_event :=
  match stdin with
  | Line s :: stdin' => ([Prompt prompt], Ok s, stdin')
  | Interrupt :: stdin' => ([Prompt prompt], Raise KeyboardInterrupt, stdin')
  | EndOfInput :: stdin' => ([Prompt prompt], Raise EOFError, stdin')
  | [] => ([Prompt prompt], Raise EOFError, [])
  end.

Definition tab : string := String (ascii_of_nat 9) EmptyString.

(** Lines 89-92: the banner and the registry. *)
Definition banner : list event :=
  Stdout (Str "No operation specified. Enter interactive mode.")
  :: Stdout (Str "Available operations:")
  :: map (fun entry =>
            Stdout (Str ("  " ++ fst entry ++ tab ++ "- "
                           ++ snd (snd entry))))
       OP_MAP.

(** Where the resolution of the input ends: with an operation and its
    numbers, or with [main] over. *)
Inductive resolution : Type :=
| Resolved (op : string) (nums : list float)
| Over (o : outcome).

(** The handler of the interactive [try] (lines 99-101): the two
    exceptions of an abandoned prompt end [main] with 0 after an empty
    line; any other exception leaves [main]. *)
Definition interactive_except (e : exn) : list event * resolution :=
  match e with
  | KeyboardInterrupt | EOFError => ([Stdout (Str "")], Over (Return 0))
  | _ => ([], Over (Uncaught e))
  end.

(** Lines 88-101. *)
Definition interactive (stdin : list input_event) : list event * resolution :=
  let '(out1, r1, stdin1) := input "Operation: " stdin in
  match r1 with
  | Raise e =>
      let '(out, r) := interactive_except e in (banner ++ out1 ++ out, r)
  | Ok line1 =>
      let op := PyStr.strip line1 in
      if negb (known op) then
        (banner ++ out1 ++ [Stdout (Str "Unknown operation")],
         Over (Return 2))
      else
        let '(out2, r2, _) :=
          input "Enter numbers separated by space: " stdin1 in
        match r2 with
        | Raise e =>
            let '(out, r) := interactive_except e in
            (banner ++ out1 ++ out2 ++ out, r)
        | Ok line2 =>
            match _to_floats (PyStr.split (PyStr.strip line2)) with
            | Ok nums => (banner ++ out1 ++ out2, Resolved op nums)
            | Raise e =>
                let '(out, r) := interactive_except e in
                (banner ++ out1 ++ out2 ++ out, r)
            end
        end
  end.

(** Lines 103-111. *)
Definition from_arguments (op : string) (numbers : list string)
  : list event * resolution :=
  match numbers with
  | [] =>
      ([Stderr "Please provide numbers for the operation"], Over (Return 2))
  | _ =>
      match _to_floats numbers with
      | Ok nums => ([], Resolved op nums)
      | Raise (ValueError msg) => ([Stderr msg], Over (Return 2))
      | Raise e => ([], Over (Uncaught e))
      end
  end.

(** Lines 116-124: the checks on the count of numbers.  A check that
    fails gives the line [main] writes before it returns 2. *)
Definition arity_complaint (op : string) (n : nat) : option string :=
  if one_of op "pow" "mod" && negb (n =? 2)%nat then
    Some ("Operation '" ++ op ++ "' requires exactly two numbers")%string
  else if String.eqb op "sub" && (n <? 1)%nat then
    Some "Subtraction requires at least one number"%string
  else if one_of op "add" "mul" && (n <? 1)%nat then
    Some ("Operation '" ++ op ++ "' requires at least one number")%string
  else None.

(** Lines 134-140: the result is shown as an integer when it is within
    [1e-12] of one, and as the float it is otherwise. *)
Definition show (result : value) : list event * outcome :=
  match result with
  | VComplex _ _ =>
      ([], Uncaught (TypeError "type complex doesn't define __round__ method"))
  | VFloat x =>
      match (n <- round x ;; d <- sub_int x n ;; Ok (n, d)) with
      | Raise e => ([], Uncaught e)
      | Ok (n, d) =>
          if (abs d <? 1e-12)%float
          then ([Stdout (Str (PyStr.of_int n))], Return 0)
          else ([Stdout (FloatRepr x)], Return 0)
      end
  end.

(** Lines 113-140: the look-up, the checks and the call under their
    two handlers, and the display.  The second handler is for
    [Exception], which [KeyboardInterrupt] is not. *)
Definition dispatch (lm : Libm) (op : string) (nums : list float)
  : list event * outcome :=
  match lookup op with
  | None => ([], Uncaught (KeyError (PyStr.repr op)))
  | Some (f, _) =>
      match arity_complaint op (List.length nums) with
      | Some complaint => ([Stderr complaint], Return 2)
      | None =>
          match call lm f nums with
          | Raise (ZeroDivisionError msg) =>
              ([Stderr ("Error: " ++ msg)], Return 3)
          | Raise KeyboardInterrupt => ([], Uncaught KeyboardInterrupt)
          | Raise e => ([Stderr ("Error: " ++ exn_message e)], Return 4)
          | Ok result => show result
          end
      end
  end.

(** Lines 86-111: interactive when no operation was given, from the
    arguments otherwise. *)
Definition resolve (args : Namespace) (stdin : list input_event)
  : list event * resolution :=
  match operation args with
  | None => interactive stdin
  | Some op =>
      if String.eqb op EmptyString then interactive stdin
      else from_arguments op (numbers args)
  end.

(** [main], from the parsed arguments on. *)
Definition main (lm : Libm) (args : Namespace) (stdin : list input_event)
  : list event * outcome :=
  let '(out, r) := resolve args stdin in
  match r with
  | Over o => (out, o)
  | Resolved op nums =>
      let '(out', o) := dispatch lm op nums in (out ++ out', o)
  end.

(** The two ways to start the program: with an operation and number
    tokens on the command line, or with nothing. *)
Definition command_line (op : string) (tokens : list string) : Namespace :=
  {| operation := Some op; numbers := tokens |}.

Definition no_arguments : Namespace :=
  {| operation := None; numbers := [] |}.

(** A C library for the runs that never reach it: whatever its two
    functions return, the runs evaluated below do not call them. *)
Definition libm_sample : Libm :=
  {| pow := fun _ _ => Ok nan; cpow := fun _ _ => Ok (nan, nan) |}.

(** ** The notions of the specification *)

(** [first op r1 op ... op rn] bracketed from the left, by its defining
    equation: the value for a sequence that ends in [r] is the value for
    the sequence before [r], combined with [r].  [before] holds the
    operands after [first], last one first. *)
Fixpoint nest (op : float -> float -> float) (first : float)
    (before : list float) : float :=
  match before with
  | [] => first
  | r :: before' => op (nest op first before') r
  end.

Definition left_assoc (op : float -> float -> float) (first : float)
    (rest : list float) : float :=
  nest op first (rev rest).

(** The same bracketing for Python's [/], which raises on a zero
    divisor. *)
Fixpoint nest_div (first : float) (before : list float) : res float :=
  match before with
  | [] => Ok first
  | r :: before' => acc <- nest_div first before' ;; float_div acc r
  end.

Definition left_assoc_div (first : float) (rest : list float) : res float :=
  nest_div first (rev rest).


(** Two results agree: the same value, or a [ZeroDivisionError] on both
    sides. *)
Definition same_result (r1 r2 : res float) : Prop :=
  match r1, r2 with
  | Ok x, Ok y => x = y
  | Raise (ZeroDivisionError _), Raise (ZeroDivisionError _) => True
  | _, _ => False
  end.


(** [x == 0] holds. *)
Definition zero_valued (x : float) : Prop := is_zero x = true.

(** What was written on standard error. *)
Definition on_stderr (out : list event) : list string :=
  flat_map (fun ev => match ev with Stderr s => [s] | _ => [] end) out.

(** The prompt that reads from [stdin] is abandoned: it meets the end of
    the input or an interrupt, not a line. *)
Definition abandoned (stdin : list input_event) : Prop :=
  match stdin with
  | Line _ :: _ => False
  | _ => True
  end.

(** [main] runs interactively: [args.operation] is unset or empty. *)
Definition interactive_mode (args : Namespace) : Prop :=
  match operation args with
  | None => True
  | Some op => op = EmptyString
  end.

(** An interactive session abandoned while prompting: at the first
    prompt, or at the second, after the name of an operation. *)
Definition abandoned_session (stdin : list input_event) : Prop :=
  abandoned stdin
  \/ exists line rest,
      stdin = Line line :: rest
      /\ known (PyStr.strip line) = true
      /\ abandoned rest.

(** The operands on which [**] raises [ZeroDivisionError]: a zero base
    with a negative exponent that is not the negative infinity. *)
Definition power_fails_on (base exponent : float) : bool :=
  is_zero base && (exponent <? 0)%float && negb (is_infinity exponent).

(** [r] is zero, or is negative exactly when [b] is. *)
Definition zero_or_sign_of (r b : float) : Prop :=
  is_zero r = true \/ (r <? 0)%float = (b <? 0)%float.

(** The value of the finite float [m * 2^e], scaled by [2^1074] so that
    it is an integer for every exponent of the format. *)
Definition scaled (m : positive) (e : Z) : Z := Zpos m * 2 ^ (e + 1074).

(** After [c] shifts of the integer [M] to the right, the record holds
    the quotient by [2^c], and a set round or sticky bit tells a
    remainder. *)
Definition shr_inv (M c : Z) (mrs : shr_record) : Prop :=
  shr_m mrs = M / 2 ^ c
  /\ (shr_r mrs || shr_s mrs = true -> 0 < M mod 2 ^ c).

(** The token [s] converts to the float [x]: through [int] or [float],
    then [float]. *)
Definition converts_to (s : string) (x : float) : Prop :=
  exists n, to_number s = Ok n /\ float_of_number n = Ok x.

(** The counts that the checks of [main] refuse. *)
Definition arity_violated (op : string) (nums : list float) : Prop :=
  (one_of op "pow" "mod" = true /\ List.length nums <> 2%nat)
  \/ ((op = "add" \/ op = "sub" \/ op = "mul")%string /\ nums = []).

(** The calls whose failure the handler for any other exception
    answers: [divide] without a number, and [power] when the C library
    reports an error. *)
Definition call_rejected (lm : Libm) (op : string) (nums : list float) : Prop :=
  (op = "div"%string /\ nums = [])
  \/ (op = "pow"%string
      /\ exists base exponent e,
          nums = [base; exponent]
          /\ (pow lm (abs base) exponent = Raise e
              \/ cpow lm base exponent = Raise e)).

(** The integer that the float [x] is, when it is one. *)
Definition integer_of (x : float) : option Z :=
  match Prim2SF x with
  | S754_zero _ => Some 0
  | S754_finite s m e =>
      if 0 <=? e then Some (cond_Zopp s (Zpos m * 2 ^ e))
      else if Zpos m mod 2 ^ (- e) =? 0
           then Some (cond_Zopp s (Zpos m / 2 ^ (- e)))
           else None
  | _ => None
  end.

(** * Properties *)

(** ** Facts on binary64 arithmetic *)

Module FloatFacts.

Lemma bounded_inv (m : positive) (e : Z) :
  bounded prec emax m e = true ->
  fexp prec emax (Z.pos (digits2_pos m) + e) = e
  /\ (e <=? emax - prec) = true.
Proof.
  unfold bounded, canonical_mantissa. intros H.
  apply andb_prop in H as [Hc He]. apply Z.eqb_eq in Hc. now split.
Qed.

(** Rounding leaves a float of the format as it is. *)
Lemma round_valid (s : bool) (m : positive) (e : Z) :
  bounded prec emax m e = true ->
  binary_round_aux prec emax s (Zpos m) e loc_Exact = S754_finite s m e.
Proof.
  intros Hb. apply bounded_inv in Hb as [Hc He].
  unfold binary_round_aux, shr_fexp. cbn [Zdigits2].
  rewrite Hc, Z.sub_diag. cbn -[fexp Z.add Z.sub Z.leb].
  rewrite Hc, Z.sub_diag. cbn -[fexp Z.add Z.sub Z.leb].
  now rewrite He.
Qed.

(** [1.0 * v] is [v], for every float, NaN, infinities and both zeros
    included. *)
Lemma mul_1_l (v : float) : (1 * v)%float = v.
Proof.
  apply Prim2SF_inj. rewrite mul_spec.
  change (Prim2SF 1) with (S754_finite false 4503599627370496 (-52)).
  pose proof (Prim2SF_valid v) as Hv.
  destruct (Prim2SF v) as [s|s| |s m e]; try reflexivity.
  cbn [valid_binary] in Hv.
  pose proof (round_valid s m e Hv) as Hr.
  apply bounded_inv in Hv as [Hc He].
  unfold SF64mul, SFmul. cbn [xorb Pos.mul].
  unfold binary_round_aux, shr_fexp in *. cbn [Zdigits2 digits2_pos] in *.
  repeat rewrite Pos2Z.inj_succ.
  replace (_ + (-52 + e)) with (Z.pos (digits2_pos m) + e) by lia.
  rewrite Hc.
  replace (e - (-52 + e)) with 52 by lia.
  cbn -[fexp Z.add Z.sub Z.leb].
  replace (-52 + e + 52) with e by lia.
  cbn -[fexp Z.add Z.sub Z.leb] in Hr.
  rewrite Hc, Z.sub_diag in Hr. cbn -[fexp Z.add Z.sub Z.leb] in Hr.
  exact Hr.
Qed.

(** The float whose specification is the negative zero. *)
Lemma neg_zero_of_SF (x : float) :
  Prim2SF x = S754_zero true -> x = PrimFloat.neg_zero.
Proof. intros H. apply Prim2SF_inj. now rewrite H. Qed.

(** [0.0 + v] is [v], except that [0.0 + -0.0] is [0.0]. *)
Lemma add_0_l (v : float) :
  v <> PrimFloat.neg_zero -> (0 + v)%float = v.
Proof.
  intros Hv. apply Prim2SF_inj. rewrite add_spec.
  change (Prim2SF 0) with (S754_zero false).
  destruct (Prim2SF v) as [[|]|s| |s m e] eqn:E; try reflexivity.
  now apply neg_zero_of_SF in E.
Qed.



(** The tests of the program on a float, read on its specification. *)
Lemma is_zero_spec (v : float) :
  is_zero v = match Prim2SF v with S754_zero _ => true | _ => false end.
Proof.
  unfold is_zero. rewrite FloatAxioms.eqb_spec.
  change (Prim2SF PrimFloat.zero) with (S754_zero false).
  now destruct (Prim2SF v) as [s|[|]| |[|] m e].
Qed.

Lemma is_nan_spec (v : float) :
  is_nan v = match Prim2SF v with S754_nan => true | _ => false end.
Proof.
  unfold is_nan. rewrite FloatAxioms.eqb_spec.
  destruct (Prim2SF v) as [s|[|]| |[|] m e]; try reflexivity;
    unfold SFeqb, SFcompare;
    now rewrite Z.compare_refl, Pos.compare_cont_refl.
Qed.

Lemma is_infinity_spec (v : float) :
  is_infinity v = match Prim2SF v with S754_infinity _ => true | _ => false end.
Proof.
  unfold is_infinity. rewrite FloatAxioms.eqb_spec, abs_spec.
  change (Prim2SF infinity) with (S754_infinity false).
  now destruct (Prim2SF v) as [s|s| |s m e].
Qed.

Lemma ltb_zero_spec (v : float) :
  (v <? 0)%float
  = match Prim2SF v with
    | S754_infinity s | S754_finite s _ _ => s
    | _ => false
    end.
Proof.
  rewrite ltb_spec. change (Prim2SF 0) with (S754_zero false).
  now destruct (Prim2SF v) as [s|[|]| |[|] m e].
Qed.

End FloatFacts.

(** ** Rounding to the format *)

Module Rounding.

Import FloatFacts.

Lemma fexp_eq (k : Z) : fexp prec emax k = Z.max (k - 53) (-1074).
Proof. reflexivity. Qed.

(** *** The number of binary digits *)

Lemma digits2_bounds (p : positive) :
  2 ^ (Zpos (digits2_pos p) - 1) <= Zpos p < 2 ^ Zpos (digits2_pos p).
Proof.
  induction p as [p IH|p IH|]; cbn [digits2_pos]; [| |cbn; lia];
    rewrite Pos2Z.inj_succ;
    replace (Z.succ (Zpos (digits2_pos p)) - 1) with (Z.succ (Zpos (digits2_pos p) - 1)) by lia;
    rewrite !Z.pow_succ_r by lia; lia.
Qed.

Lemma digits2_le (p : positive) (n : Z) :
  Zpos p < 2 ^ n -> Zpos (digits2_pos p) <= n.
Proof.
  intros H. destruct (digits2_bounds p) as [Hlo _].
  destruct (Z.le_gt_cases (Zpos (digits2_pos p)) n) as [|Hgt]; [assumption|].
  assert (0 <= n) by (destruct n; try lia; cbn in H; lia).
  assert (2 ^ n <= 2 ^ (Zpos (digits2_pos p) - 1))
    by (apply Z.pow_le_mono_r; lia).
  lia.
Qed.

Lemma digits2_ge (p : positive) (n : Z) :
  2 ^ (n - 1) <= Zpos p -> n <= Zpos (digits2_pos p).
Proof.
  intros H. destruct (digits2_bounds p) as [_ Hhi].
  destruct (Z.le_gt_cases n (Zpos (digits2_pos p))) as [|Hgt]; [assumption|].
  assert (2 ^ Zpos (digits2_pos p) <= 2 ^ (n - 1))
    by (apply Z.pow_le_mono_r; lia).
  lia.
Qed.

Lemma digits2_unique (p : positive) (n : Z) :
  2 ^ (n - 1) <= Zpos p < 2 ^ n -> Zpos (digits2_pos p) = n.
Proof.
  intros [Hlo Hhi]. apply Z.le_antisymm;
    [now apply digits2_le | now apply digits2_ge].
Qed.

(** Appending [k] zero bits. *)
Lemma shift_value (p k : positive) :
  Zpos (Pos.iter xO p k) = Zpos p * 2 ^ Zpos k.
Proof.
  induction k as [|k IH] using Pos.peano_ind.
  - cbn. lia.
  - rewrite Pos.iter_succ, Pos2Z.inj_succ, Z.pow_succ_r by lia.
    rewrite Pos2Z.inj_xO, IH. lia.
Qed.

Lemma shift_digits (p k : positive) :
  Zpos (digits2_pos (Pos.iter xO p k)) = Zpos (digits2_pos p) + Zpos k.
Proof.
  induction k as [|k IH] using Pos.peano_ind.
  - cbn [Pos.iter digits2_pos]. lia.
  - rewrite Pos.iter_succ. cbn [digits2_pos]. lia.
Qed.

(** *** Floats of the format *)

Lemma bounded_spec (m : positive) (e : Z) :
  bounded prec emax m e = true <->
  Z.max (Zpos (digits2_pos m) + e - 53) (-1074) = e /\ e <= 971.
Proof.
  unfold bounded, canonical_mantissa. rewrite andb_true_iff, Z.eqb_eq, Z.leb_le.
  rewrite fexp_eq. reflexivity.
Qed.

Lemma scaled_pos (m : positive) (e : Z) : -1074 <= e -> 0 < scaled m e.
Proof. intros H. unfold scaled. apply Z.mul_pos_pos; [lia|]. apply Z.pow_pos_nonneg; lia. Qed.

(** The sum of the digits and the exponent follows the value. *)
Lemma scaled_le_digits (m1 m2 : positive) (e1 e2 : Z) :
  -1074 <= e1 -> -1074 <= e2 ->
  scaled m1 e1 <= scaled m2 e2 ->
  Zpos (digits2_pos m1) + e1 <= Zpos (digits2_pos m2) + e2.
Proof.
  unfold scaled. intros H1 H2 H.
  destruct (digits2_bounds m1) as [Hlo _], (digits2_bounds m2) as [_ Hhi].
  assert (A : 2 ^ (Zpos (digits2_pos m1) - 1 + (e1 + 1074)) <= Zpos m1 * 2 ^ (e1 + 1074)).
  { rewrite (Z.pow_add_r 2 (Zpos (digits2_pos m1) - 1)) by lia.
    apply Z.mul_le_mono_nonneg_r; [apply Z.pow_nonneg; lia|lia]. }
  assert (B : Zpos m2 * 2 ^ (e2 + 1074) < 2 ^ (Zpos (digits2_pos m2) + (e2 + 1074))).
  { rewrite (Z.pow_add_r 2 (Zpos (digits2_pos m2))) by lia.
    apply Z.mul_lt_mono_pos_r; [apply Z.pow_pos_nonneg; lia|lia]. }
  assert (C : 2 ^ (Zpos (digits2_pos m1) - 1 + (e1 + 1074)) < 2 ^ (Zpos (digits2_pos m2) + (e2 + 1074))) by lia.
  apply Z.pow_lt_mono_r_iff in C; lia.
Qed.

Lemma pow_split (a b : Z) :
  -1074 <= a <= b -> 2 ^ (b + 1074) = 2 ^ (b - a) * 2 ^ (a + 1074).
Proof. intros H. rewrite <- Z.pow_add_r by lia. f_equal. lia. Qed.

Lemma pow_ge_2 (k : Z) : 0 < k -> 2 <= 2 ^ k.
Proof.
  intros H. change 2 with (2 ^ 1) at 1. apply Z.pow_le_mono_r; lia.
Qed.

Lemma scale_lt (x y P Q : Z) :
  0 < P -> 2 <= Q -> 0 < y -> x < 2 * y -> x * P < y * (Q * P).
Proof.
  intros HP HQ Hy Hx.
  apply Z.lt_le_trans with (2 * y * P).
  - apply Z.mul_lt_mono_pos_r; assumption.
  - rewrite Z.mul_assoc. apply Z.mul_le_mono_nonneg_r; [lia|].
    rewrite (Z.mul_comm 2 y). apply Z.mul_le_mono_nonneg_l; lia.
Qed.

(** *** Comparison *)

Lemma compare_of_scaled (m1 m2 : positive) (e1 e2 : Z) :
  bounded prec emax m1 e1 = true ->
  bounded prec emax m2 e2 = true ->
  SFcompare (S754_finite false m1 e1) (S754_finite false m2 e2)
  = Some (scaled m1 e1 ?= scaled m2 e2).
Proof.
  intros B1 B2. apply bounded_spec in B1 as [C1 _], B2 as [C2 _].
  cbn [SFcompare]. f_equal. unfold scaled.
  destruct (digits2_bounds m1) as [L1 U1], (digits2_bounds m2) as [L2 U2].
  destruct (Z.compare_spec e1 e2) as [->|Hlt|Hgt].
  - rewrite Pos.compare_cont_spec. cbn [Pos.switch_Eq].
    assert (0 < 2 ^ (e2 + 1074)) by (apply Z.pow_pos_nonneg; lia).
    symmetry. destruct (Pos.compare_spec m1 m2) as [->|Hm|Hm].
    + apply Z.compare_refl.
    + apply Z.compare_lt_iff. apply Z.mul_lt_mono_pos_r; lia.
    + apply Z.compare_gt_iff. apply Z.mul_lt_mono_pos_r; lia.
  - symmetry. apply Z.compare_lt_iff.
    assert (D2 : Zpos (digits2_pos m2) = 53) by lia.
    assert (D1 : Zpos (digits2_pos m1) <= 53) by lia.
    rewrite D2 in L2.
    assert (Zpos m1 < 2 ^ 53)
      by (eapply Z.lt_le_trans; [exact U1|apply Z.pow_le_mono_r; lia]).
    rewrite (pow_split e1 e2) by lia.
    assert (0 < 2 ^ (e1 + 1074)) by (apply Z.pow_pos_nonneg; lia).
    assert (2 <= 2 ^ (e2 - e1)) by (apply pow_ge_2; lia).
    change (2 ^ (53 - 1)) with 4503599627370496 in L2.
    change (2 ^ 53) with 9007199254740992 in *.
    apply scale_lt; lia.
  - symmetry. apply Z.compare_gt_iff.
    assert (D1 : Zpos (digits2_pos m1) = 53) by lia.
    assert (D2 : Zpos (digits2_pos m2) <= 53) by lia.
    rewrite D1 in L1.
    assert (Zpos m2 < 2 ^ 53)
      by (eapply Z.lt_le_trans; [exact U2|apply Z.pow_le_mono_r; lia]).
    rewrite (pow_split e2 e1) by lia.
    assert (0 < 2 ^ (e2 + 1074)) by (apply Z.pow_pos_nonneg; lia).
    assert (2 <= 2 ^ (e1 - e2)) by (apply pow_ge_2; lia).
    change (2 ^ (53 - 1)) with 4503599627370496 in L1.
    change (2 ^ 53) with 9007199254740992 in *.
    apply scale_lt; lia.
Qed.

(** *** Alignment and exact rounding *)

Lemma shl_align_spec (mx : positive) (ex ex' : Z) :
  let '(m', e') := shl_align mx ex ex' in
  e' = Z.min ex ex'
  /\ Zpos m' = Zpos mx * 2 ^ (ex - e')
  /\ Zpos (digits2_pos m') + e' = Zpos (digits2_pos mx) + ex.
Proof.
  unfold shl_align. destruct (ex' - ex) as [|d|d] eqn:E.
  - replace (ex - ex) with 0 by lia. cbn. lia.
  - replace (ex - ex) with 0 by lia. cbn. lia.
  - rewrite shift_value, shift_digits.
    replace (ex - ex') with (Zpos d) by lia. lia.
Qed.

(** Rounding an integer multiple of [2^e] with at most 53 digits is
    exact. *)
Lemma binary_round_exact (s : bool) (r : positive) (e : Z) :
  Zpos (digits2_pos r) <= 53 -> -1074 <= e <= 971 ->
  exists m' e',
    binary_round prec emax s r e = S754_finite s m' e'
    /\ bounded prec emax m' e' = true
    /\ scaled m' e' = scaled r e.
Proof.
  intros Hd He. unfold binary_round.
  pose proof (shl_align_spec r e (fexp prec emax (Zpos (digits2_pos r) + e))) as H.
  destruct (shl_align r e _) as [mz ez]. rewrite fexp_eq in H.
  destruct H as (Hez & Hmz & Hdz).
  assert (Hb : bounded prec emax mz ez = true) by (apply bounded_spec; lia).
  exists mz, ez. split; [now apply round_valid|]. split; [exact Hb|].
  unfold scaled. rewrite Hmz, <- Z.mul_assoc, <- Z.pow_add_r by lia.
  do 2 f_equal. lia.
Qed.

(** *** Shifting to the right *)

Lemma shr_1_inv (M c : Z) (mrs : shr_record) :
  0 <= M -> 0 <= c -> shr_inv M c mrs -> shr_inv M (c + 1) (shr_1 mrs).
Proof.
  intros HM Hc [Hm Hb]. destruct mrs as [m r s]. cbn [shr_m shr_r shr_s] in *.
  assert (Hp : 0 < 2 ^ c) by (apply Z.pow_pos_nonneg; lia).
  assert (Hq : M / 2 ^ (c + 1) = m / 2).
  { rewrite Z.pow_add_r, <- Z.div_div, <- Hm by lia. reflexivity. }
  assert (Hr : M mod 2 ^ (c + 1) = M mod 2 ^ c + 2 ^ c * (m mod 2)).
  { rewrite Z.pow_add_r, Z.rem_mul_r, <- Hm by lia. reflexivity. }
  assert (Hm0 : 0 <= m) by (rewrite Hm; apply Z.div_pos; lia).
  assert (Hrem : 0 <= M mod 2 ^ c) by (apply Z.mod_pos_bound; lia).
  unfold shr_inv. rewrite Hq, Hr.
  destruct m as [|[p|p|]|p]; cbn [shr_1 shr_m shr_r shr_s orb]; try lia.
  - split; [reflexivity|]. rewrite Z.mul_0_r. intros H. apply Hb in H. lia.
  - split; [rewrite Pos2Z.inj_xI; Z.div_mod_to_equations; lia|].
    intros _. replace (Zpos p~1 mod 2) with 1
      by (rewrite Pos2Z.inj_xI; Z.div_mod_to_equations; lia). lia.
  - split; [rewrite Pos2Z.inj_xO; Z.div_mod_to_equations; lia|].
    replace (Zpos p~0 mod 2) with 0
      by (rewrite Pos2Z.inj_xO; Z.div_mod_to_equations; lia).
    intros H. apply Hb in H. lia.
  - split; [reflexivity|]. intros _. cbn. lia.
Qed.

Lemma iter_shr_inv (M : Z) (p : positive) :
  0 <= M ->
  forall (mrs : shr_record) (c : Z),
    0 <= c -> shr_inv M c mrs ->
    shr_inv M (c + Zpos p) (iter_pos shr_1 p mrs).
Proof.
  intros HM. induction p as [p IH|p IH|]; intros mrs c Hc H; cbn [iter_pos].
  - replace (c + Zpos p~1) with (c + 1 + Zpos p + Zpos p) by lia.
    apply IH; [lia|]. apply IH; [lia|]. now apply shr_1_inv.
  - replace (c + Zpos p~0) with (c + Zpos p + Zpos p) by lia.
    apply IH; [lia|]. now apply IH.
  - now apply shr_1_inv.
Qed.

Lemma shr_inv_start (M : Z) :
  shr_inv M 0 {| shr_m := M; shr_r := false; shr_s := false |}.
Proof. split; cbn; [now rewrite Z.div_1_r|discriminate]. Qed.

(** Rounding to nearest goes up by one at most, and only when the round
    bit is set. *)
Lemma round_nearest_even_cases (mrs : shr_record) :
  let m := round_nearest_even (shr_m mrs) (loc_of_shr_record mrs) in
  m = shr_m mrs \/ (m = shr_m mrs + 1 /\ shr_r mrs = true).
Proof.
  destruct mrs as [m [|] [|]]; cbn [round_nearest_even loc_of_shr_record shr_m shr_r];
    try destruct (Z.even m); auto.
Qed.

Lemma round_bound (M m1 rem K V mr : Z) :
  0 < K -> M = K * m1 + rem -> 0 <= rem < K -> M <= V * K ->
  mr = m1 \/ (mr = m1 + 1 /\ 0 < rem) -> mr <= V.
Proof.
  intros HK HM Hrem HV [-> | [-> Hr]].
  - apply Z.mul_le_mono_pos_l with K; lia.
  - assert (K * m1 < K * V) by lia.
    apply Z.mul_lt_mono_pos_l in H; lia.
Qed.

Lemma quotient_digits (M k : Z) (D : Z) :
  0 < k -> D = k + 53 -> 2 ^ (D - 1) <= M < 2 ^ D ->
  2 ^ 52 <= M / 2 ^ k < 2 ^ 53.
Proof.
  intros Hk -> [Hlo Hhi].
  assert (HK : 0 < 2 ^ k) by (apply Z.pow_pos_nonneg; lia).
  replace (k + 53 - 1) with (52 + k) in Hlo by lia.
  rewrite Z.pow_add_r in Hlo by lia.
  rewrite (Z.add_comm k 53), Z.pow_add_r in Hhi by lia.
  split.
  - apply Z.div_le_lower_bound; lia.
  - apply Z.div_lt_upper_bound; lia.
Qed.

(** Rounding keeps a value under a float of the format that is above
    it. *)
Lemma binary_round_le (s : bool) (M : positive) (E : Z) (m2 : positive) (e2 : Z) :
  -1074 <= E ->
  bounded prec emax m2 e2 = true ->
  scaled M E <= scaled m2 e2 ->
  exists m' e',
    binary_round prec emax s M E = S754_finite s m' e'
    /\ bounded prec emax m' e' = true
    /\ scaled m' e' <= scaled m2 e2.
Proof.
  intros HE Hb2 Hle.
  pose proof Hb2 as Hb2'. apply bounded_spec in Hb2' as [C2 U2].
  assert (Ht : Zpos (digits2_pos M) + E <= Zpos (digits2_pos m2) + e2)
    by (apply scaled_le_digits; [lia|lia|exact Hle]).
  unfold binary_round.
  pose proof (shl_align_spec M E (fexp prec emax (Zpos (digits2_pos M) + E))) as H.
  destruct (shl_align M E _) as [Mz Ez]. rewrite fexp_eq in H.
  destruct H as (Hez & Hmz & Hdz).
  destruct (Z.le_gt_cases (Z.max (Zpos (digits2_pos M) + E - 53) (-1074)) E)
    as [Hf | Hf].
  - (* the exponent is already that of the format *)
    assert (Hb : bounded prec emax Mz Ez = true) by (apply bounded_spec; lia).
    exists Mz, Ez. split; [now apply round_valid|]. split; [exact Hb|].
    unfold scaled in *. rewrite Hmz, <- Z.mul_assoc, <- Z.pow_add_r by lia.
    replace (E - Ez + (Ez + 1074)) with (E + 1074) by lia. exact Hle.
  - (* [k] low bits are rounded off *)
    assert (HEz : Ez = E) by lia. clear Hez. subst Ez.
    assert (HMz : Mz = M).
    { rewrite Z.sub_diag in Hmz. cbn in Hmz. lia. }
    subst Mz. clear Hmz Hdz.
    destruct (Zpos (digits2_pos M) - 53) as [|k|k] eqn:Hk; try lia.
    assert (HD : Zpos (digits2_pos M) = Zpos k + 53) by lia.
    unfold binary_round_aux, shr_fexp. cbn [Zdigits2]. rewrite fexp_eq.
    replace (Z.max (Zpos (digits2_pos M) + E - 53) (-1074) - E) with (Zpos k) by lia.
    cbn [shr shr_record_of_loc].
    pose proof (iter_shr_inv (Zpos M) k ltac:(lia) _ 0 ltac:(lia)
                  (shr_inv_start (Zpos M))) as [Hm1 Hbits].
    pose proof (round_nearest_even_cases
                  (iter_pos shr_1 k
                     {| shr_m := Zpos M; shr_r := false; shr_s := false |})) as Hmr.
    cbv zeta in Hmr.
    set (mrs := iter_pos shr_1 k _) in *.
    set (mr := round_nearest_even (shr_m mrs) (loc_of_shr_record mrs)) in *.
    cbn [Z.add] in Hm1, Hbits.
    pose proof (quotient_digits (Zpos M) (Zpos k) _ ltac:(lia) HD (digits2_bounds M))
      as Hq.
    rewrite <- Hm1 in Hq.
    (* the bound, on the mantissa *)
    set (f := E + Zpos k) in *.
    assert (Hfe : f <= e2) by lia.
    assert (HK : 0 < 2 ^ Zpos k) by (apply Z.pow_pos_nonneg; lia).
    assert (HP : 0 < 2 ^ (E + 1074)) by (apply Z.pow_pos_nonneg; lia).
    assert (Hpf : 2 ^ (f + 1074) = 2 ^ Zpos k * 2 ^ (E + 1074)).
    { rewrite <- Z.pow_add_r by lia. f_equal. lia. }
    assert (HW : scaled m2 e2 = Zpos m2 * 2 ^ (e2 - f) * 2 ^ (f + 1074)).
    { unfold scaled. rewrite <- Z.mul_assoc, <- Z.pow_add_r by lia.
      do 2 f_equal. lia. }
    set (V := Zpos m2 * 2 ^ (e2 - f)) in *.
    assert (HMV : Zpos M <= V * 2 ^ Zpos k).
    { unfold scaled in Hle at 1. rewrite HW, Hpf, Z.mul_assoc in Hle.
      apply Z.mul_le_mono_pos_r in Hle; assumption. }
    assert (Hmod : 0 <= Zpos M mod 2 ^ Zpos k < 2 ^ Zpos k)
      by (apply Z.mod_pos_bound; assumption).
    assert (HmrV : mr <= V).
    { apply (round_bound (Zpos M) (shr_m mrs) (Zpos M mod 2 ^ Zpos k)
               (2 ^ Zpos k) V mr); try assumption.
      - rewrite Hm1. apply Z.div_mod. lia.
      - destruct Hmr as [Hmr | [Hmr Hr]]; [now left|right].
        split; [exact Hmr|]. apply Hbits. now rewrite Hr. }
    assert (Hres : mr * 2 ^ (f + 1074) <= scaled m2 e2).
    { rewrite HW. apply Z.mul_le_mono_nonneg_r; [|exact HmrV].
      apply Z.pow_nonneg. lia. }
    assert (Hmr' : 2 ^ 52 <= mr <= 2 ^ 53) by lia.
    clearbody mr. clear Hmr Hbits.
    destruct mr as [|q|q]; try (cbn in Hmr'; lia).
    destruct (Z.eq_dec (Zpos q) (2 ^ 53)) as [Hq53 | Hq53].
    + (* rounded up to the next power of two *)
      injection Hq53 as ->.
      assert (Hf1 : f + 1 <= e2).
      { destruct (Z.eq_dec e2 f) as [Heq|]; [|lia].
        exfalso. unfold V in HmrV. rewrite Heq, Z.sub_diag in HmrV.
        destruct (digits2_bounds m2) as [_ Hm2].
        assert (2 ^ Zpos (digits2_pos m2) <= 2 ^ 53)
          by (apply Z.pow_le_mono_r; lia).
        cbn in HmrV. cbn in H. lia. }
      cbn [Zdigits2 digits2_pos Pos.succ]. rewrite fexp_eq.
      replace (Z.max (54 + f - 53) (-1074) - f) with 1 by lia.
      cbn [shr iter_pos shr_1 shr_record_of_loc shr_m].
      replace (f + 1 <=? emax - prec) with true
        by (symmetry; apply Z.leb_le; change (emax - prec) with 971; lia).
      exists 4503599627370496%positive, (f + 1). split; [reflexivity|].
      split.
      * apply bounded_spec. cbn [digits2_pos Pos.succ]. lia.
      * unfold scaled. replace (f + 1 + 1074) with (1 + (f + 1074)) by lia.
        rewrite Z.pow_add_r, Z.mul_assoc by lia. exact Hres.
    + assert (Hdq : Zpos (digits2_pos q) = 53)
        by (apply digits2_unique; change (2 ^ (53 - 1)) with (2 ^ 52); lia).
      cbn [Zdigits2]. rewrite fexp_eq, Hdq.
      replace (Z.max (53 + f - 53) (-1074) - f) with 0 by lia.
      cbn [shr shr_record_of_loc shr_m].
      replace (f <=? emax - prec) with true
        by (symmetry; apply Z.leb_le; change (emax - prec) with 971; lia).
      exists q, f. split; [reflexivity|]. split; [|exact Hres].
      apply bounded_spec. lia.
Qed.

(** *** Signs, digits and alignment of floats of the format *)

Lemma binary_normalize_signed (s z : bool) (d : positive) (e : Z) :
  binary_normalize prec emax (cond_Zopp s (Zpos d)) e z
  = binary_round prec emax s d e.
Proof. now destruct s. Qed.

Lemma bounded_digits (m : positive) (e : Z) :
  bounded prec emax m e = true ->
  Zpos m < 2 ^ 53 /\ -1074 <= e <= 971.
Proof.
  intros H. apply bounded_spec in H as [C U].
  destruct (digits2_bounds m) as [_ Hm].
  assert (2 ^ Zpos (digits2_pos m) <= 2 ^ 53) by (apply Z.pow_le_mono_r; lia).
  lia.
Qed.

Lemma aligned_scaled (m : positive) (e c : Z) :
  -1074 <= c <= e -> scaled m e = Zpos m * 2 ^ (e - c) * 2 ^ (c + 1074).
Proof.
  intros H. unfold scaled. rewrite <- Z.mul_assoc, <- Z.pow_add_r by lia.
  do 2 f_equal. lia.
Qed.

End Rounding.

Import FloatFacts Rounding.

(** ** Sums, products, differences and quotients *)

Section LeftFolds.

Variable op : float -> float -> float.

Lemma fold_left_snoc (rest : list float) (first r : float) :
  fold_left op (rest ++ [r]) first = op (fold_left op rest first) r.
Proof. now rewrite fold_left_app. Qed.

Lemma left_assoc_snoc (rest : list float) (first r : float) :
  left_assoc op first (rest ++ [r]) = op (left_assoc op first rest) r.
Proof. unfold left_assoc. now rewrite rev_app_distr. Qed.

(** The loop of [reduce] computes the left bracketing. *)
Lemma fold_left_left_assoc (rest : list float) (first : float) :
  fold_left op rest first = left_assoc op first rest.
Proof.
  induction rest as [|r rest IH] using rev_ind; [reflexivity|].
  now rewrite fold_left_snoc, left_assoc_snoc, IH.
Qed.

End LeftFolds.





Example add_1_2_3 : add [1; 2; 3]%float = 6%float.
Proof. reflexivity. Qed.

Example multiply_2_3_4 : multiply [2; 3; 4]%float = 24%float.
Proof. reflexivity. Qed.

(** The sum of negative zeros shows why C1 speaks of the same number. *)
Example add_negative_zeros :
  add [-0; -0]%float = 0%float
  /\ left_assoc PrimFloat.add (-0)%float [(-0)%float] = (-0)%float.
Proof. split; reflexivity. Qed.

(** *** The loop of [divide] *)

Lemma bind_ok {A : Type} (r : res A) : (x <- r ;; Ok x) = r.
Proof. now destruct r. Qed.

Lemma bind_assoc {A B C : Type} (r : res A) (f : A -> res B) (g : B -> res C) :
  (y <- (x <- r ;; f x) ;; g y) = (x <- r ;; y <- f x ;; g y).
Proof. now destruct r. Qed.

Lemma float_div_nonzero (v w : float) :
  is_zero w = false -> float_div v w = Ok (v / w)%float.
Proof. unfold float_div. now intros ->. Qed.

(** One more divisor at the end: the quotient so far goes through the
    test and the division once more. *)
Lemma divide_loop_snoc (rest : list float) (first r : float) :
  divide_loop first (rest ++ [r]) =
  (acc <- divide_loop first rest ;;
   if is_zero r then Raise (ZeroDivisionError "Division by zero")
   else float_div acc r).
Proof.
  revert first.
  induction rest as [|x rest IH]; intros first; cbn [app divide_loop bind].
  - destruct (is_zero r); [reflexivity|]. apply bind_ok.
  - destruct (is_zero x); [reflexivity|].
    destruct (float_div first x); cbn [bind]; [apply IH|reflexivity].
Qed.

Lemma divide_same_result (first : float) (rest : list float) :
  same_result (divide first rest) (left_assoc_div first rest).
Proof.
  unfold divide, left_assoc_div.
  induction rest as [|r rest IH] using rev_ind; [reflexivity|].
  rewrite divide_loop_snoc, rev_app_distr. cbn [rev app nest_div].
  destruct (divide_loop first rest) as [x|[]],
      (nest_div first (rev rest)) as [y|[]];
    cbn [same_result bind] in IH |- *; try contradiction; try exact I.
  subst y. unfold float_div. now destruct (is_zero r).
Qed.

(** Without a zero among the divisors the loop returns the quotient. *)
Lemma divide_nonzero (first : float) (rest : list float) :
  Forall (fun r => is_zero r = false) rest ->
  divide first rest = Ok (left_assoc PrimFloat.div first rest).
Proof.
  unfold divide. rewrite <- fold_left_left_assoc.
  intros H. revert first. induction H as [|r rest Hr _ IH]; intros first.
  - reflexivity.
  - cbn [divide_loop fold_left].
    rewrite Hr, (float_div_nonzero _ _ Hr). cbn [bind]. apply IH.
Qed.

(** C2: [subtract] computes [((a - b) - c) - ...] from the first value
    on, and [divide] the same bracketing of quotients: its result agrees
    with that of Python's [/] taken from left to right (which raises on
    a zero divisor), and is its value when no divisor is zero.  On a
    single value each returns that value. *)
Theorem subtract_divide_left_fold (first : float) (rest : list float) :
  subtract first rest = left_assoc PrimFloat.sub first rest
  /\ same_result (divide first rest) (left_assoc_div first rest)
  /\ (Forall (fun r => is_zero r = false) rest ->
      divide first rest = Ok (left_assoc PrimFloat.div first rest))
  /\ subtract first [] = first
  /\ divide first [] = Ok first.
Proof.
  repeat split.
  - apply fold_left_left_assoc.
  - apply divide_same_result.
  - apply divide_nonzero.
Qed.

Lemma subtract_divide_left_fold_witness :
  subtract 10 [1; 2]%float = 7%float /\ divide 20 [2; 2]%float = Ok 5%float.
Proof.
  destruct (subtract_divide_left_fold 10 [1; 2]%float) as [Hs _].
  destruct (subtract_divide_left_fold 20 [2; 2]%float) as (_ & _ & Hd & _).
  split.
  - rewrite Hs. reflexivity.
  - rewrite Hd; [reflexivity|]. repeat constructor.
Defined.

(** *** Zero divisors *)

(** With a zero among the divisors, the test of the loop raises, and
    nothing else does: the exception carries the text of the test, not
    the text of Python's division. *)
Lemma divide_zero_divisor (first : float) (rest : list float) :
  Exists zero_valued rest ->
  divide first rest = Raise (ZeroDivisionError "Division by zero").
Proof.
  unfold divide, zero_valued. intros H. revert first.
  induction rest as [|r rest IH]; intros first; [inversion H|].
  cbn [divide_loop]. destruct (is_zero r) eqn:Hr; [reflexivity|].
  rewrite (float_div_nonzero _ _ Hr). cbn [bind]. apply IH.
  inversion H as [? ? H0|]; subst; [congruence|assumption].
Qed.

(** X1: whatever [divide] raises comes from its own test, which
    stands before the division: the error of the division itself is
    never raised. *)
Lemma divide_raises_only_its_own (first : float) (rest : list float) (e : exn) :
  divide first rest = Raise e -> e = ZeroDivisionError "Division by zero".
Proof.
  unfold divide. revert first.
  induction rest as [|r rest IH]; intros first; cbn [divide_loop].
  - discriminate.
  - destruct (is_zero r) eqn:Hr; [congruence|].
    rewrite (float_div_nonzero _ _ Hr). cbn [bind]. apply IH.
Qed.

Lemma modulo_zero (a b : float) :
  zero_valued b -> modulo a b = Raise (ZeroDivisionError "Modulo by zero").
Proof. unfold modulo, zero_valued. now intros ->. Qed.

Section Dispatch.

Variable lm : Libm.

(** Once the input is resolved, [main] is [dispatch]. *)
Lemma main_resolved (args : Namespace) (stdin : list input_event)
    (out : list event) (op : string) (nums : list float) :
  resolve args stdin = (out, Resolved op nums) ->
  main lm args stdin
  = (out ++ fst (dispatch lm op nums), snd (dispatch lm op nums)).
Proof. unfold main. intros ->. now destruct (dispatch lm op nums). Qed.

Lemma main_over (args : Namespace) (stdin : list input_event)
    (out : list event) (o : outcome) :
  resolve args stdin = (out, Over o) -> main lm args stdin = (out, o).
Proof. unfold main. now intros ->. Qed.

Lemma dispatch_div_zero (first : float) (rest : list float) :
  Exists zero_valued rest ->
  dispatch lm "div" (first :: rest)
  = ([Stderr "Error: Division by zero"], Return 3).
Proof.
  intros H. unfold dispatch. cbn -[divide].
  now rewrite (divide_zero_divisor first rest H).
Qed.

Lemma dispatch_mod_zero (a b : float) :
  zero_valued b ->
  dispatch lm "mod" [a; b] = ([Stderr "Error: Modulo by zero"], Return 3).
Proof.
  intros H. unfold dispatch. cbn -[modulo].
  now rewrite (modulo_zero a b H).
Qed.

(** C3: with a zero among its divisors, [divide] fails with the
    program's own "Division by zero", raised by the test that stands
    before the division, so that no infinity or NaN comes out of it;
    [modulo] with a zero second value fails with "Modulo by zero"; and
    in both cases [main] reports the error and the process exits with
    code 3. *)
Theorem zero_divisor_exit_3 (args : Namespace) (stdin : list input_event)
    (out : list event) :
  (forall first rest,
      Exists zero_valued rest ->
      divide first rest = Raise (ZeroDivisionError "Division by zero")
      /\ (resolve args stdin = (out, Resolved "div" (first :: rest)) ->
          main lm args stdin
          = (out ++ [Stderr "Error: Division by zero"], Return 3)
          /\ exit_status (snd (main lm args stdin)) = 3))
  /\ (forall a b,
      zero_valued b ->
      modulo a b = Raise (ZeroDivisionError "Modulo by zero")
      /\ (resolve args stdin = (out, Resolved "mod" [a; b]) ->
          main lm args stdin
          = (out ++ [Stderr "Error: Modulo by zero"], Return 3)
          /\ exit_status (snd (main lm args stdin)) = 3)).
Proof.
  split.
  - intros first rest Hz. split; [now apply divide_zero_divisor|].
    intros Hr. rewrite (main_resolved _ _ _ _ _ Hr).
    now rewrite (dispatch_div_zero first rest Hz).
  - intros a b Hz. split; [now apply modulo_zero|].
    intros Hr. rewrite (main_resolved _ _ _ _ _ Hr).
    now rewrite (dispatch_mod_zero a b Hz).
Qed.

End Dispatch.

Lemma zero_divisor_exit_3_witness :
  main libm_sample (command_line "div" ["8"; "2"; "0"; "4"]%string) []
  = ([Stderr "Error: Division by zero"], Return 3)
  /\ main libm_sample (command_line "mod" ["10"; "-0.0"]%string) []
     = ([Stderr "Error: Modulo by zero"], Return 3).
Proof.
  split.
  - refine (proj1 (proj2 (proj1 (zero_divisor_exit_3 libm_sample
              (command_line "div" ["8"; "2"; "0"; "4"]%string) [] [])
              8%float [2; 0; 4]%float _) _)).
    + right. left. reflexivity.
    + reflexivity.
  - refine (proj1 (proj2 (proj2 (zero_divisor_exit_3 libm_sample
              (command_line "mod" ["10"; "-0.0"]%string) [] [])
              10%float (-0)%float _) _)).
    + reflexivity.
    + reflexivity.
Defined.

(** ** The checks on the count of numbers *)

Section Arity.

Variable lm : Libm.

(** The counts the checks of [main] refuse: [pow] and [mod] with other
    than two numbers; [add], [sub] and [mul] with none. *)
Lemma arity_violation_exit_2 (op : string) (nums : list float) :
  (one_of op "pow" "mod" = true /\ List.length nums <> 2%nat)
  \/ ((op = "add" \/ op = "sub" \/ op = "mul")%string /\ nums = []) ->
  exists complaint, dispatch lm op nums = ([Stderr complaint], Return 2).
Proof.
  intros [[Hop Hn] | [Hop ->]].
  - unfold dispatch, arity_complaint. rewrite Hop.
    apply Nat.eqb_neq in Hn. rewrite Hn.
    unfold one_of in Hop. apply orb_prop in Hop.
    destruct Hop as [H | H]; apply String.eqb_eq in H; subst op;
      eexists; reflexivity.
  - destruct Hop as [-> | [-> | ->]]; eexists; reflexivity.
Qed.

(** [div] has no such check: without numbers the call itself fails,
    and the handler for any other exception answers. *)
Lemma dispatch_div_no_numbers :
  dispatch lm "div" []
  = ([Stderr "Error: divide() missing 1 required positional argument: 'first'"],
     Return 4).
Proof. reflexivity. Qed.

(** C4: the arity rule of [div] (at least one value) is not enforced.
    An interactive session that asks for [div] and enters no number
    ends with exit code 4 and the text of a [TypeError], where the
    rule asks for an arity error and exit code 2. *)
Theorem div_without_numbers_exit_4 :
  main lm no_arguments [Line "div"; Line ""]
  = (banner
       ++ [Prompt "Operation: "; Prompt "Enter numbers separated by space: ";
           Stderr "Error: divide() missing 1 required positional argument: 'first'"],
     Return 4).
Proof. reflexivity. Qed.

End Arity.

(** ** Tokens that are not numbers *)

(** The first token that does not convert stops [_to_floats] with the
    program's [ValueError], whose text shows that token. *)
Lemma to_floats_invalid (good : list string) (bad : string) (rest : list string)
    (nums : list number) (msg : string) :
  to_numbers good = Ok nums ->
  to_number bad = Raise (ValueError msg) ->
  _to_floats (good ++ bad :: rest)
  = Raise (ValueError ("Invalid numeric value: " ++ PyStr.repr bad)).
Proof.
  intros Hgood Hbad. unfold _to_floats.
  enough (H : to_numbers (good ++ bad :: rest)
              = Raise (ValueError ("Invalid numeric value: " ++ PyStr.repr bad)))
    by now rewrite H.
  revert nums Hgood. induction good as [|s good IH]; intros nums Hgood.
  - cbn [app to_numbers]. now rewrite Hbad.
  - cbn [app to_numbers] in Hgood |- *.
    destruct (to_number s) as [n|e]; [|destruct e; discriminate].
    destruct (to_numbers good) as [ns|e] eqn:E; [|discriminate].
    now rewrite (IH ns eq_refl).
Qed.

(** [to_number] raises nothing but [ValueError]. *)
Lemma to_number_raises_value_error (s : string) (e : exn) :
  to_number s = Raise e -> exists msg, e = ValueError msg.
Proof.
  unfold to_number, float_of_string, int_of_string.
  destruct (_ || _).
  - destruct (drop_underscores None (chars s)) as [cs|]; cbn [bind].
    + destruct (split_sign _) as [neg body].
      destruct (_ || _); [discriminate|].
      destruct (String.eqb _ _); [discriminate|].
      destruct (scan_decimal body) as [[m e']|]; cbn [bind]; [discriminate|].
      intros [= <-]. eauto.
    + intros [= <-]. eauto.
  - destruct (split_sign _) as [neg body].
    destruct (drop_underscores None body) as [ds|]; cbn [bind].
    + destruct (_ && _); cbn [bind]; [discriminate|]. intros [= <-]. eauto.
    + intros [= <-]. eauto.
Qed.

Section Tokens.

Variable lm : Libm.

(** X2: with the tokens on the command line, the first token that is
    no number is reported on standard error and [main] returns 2,
    whatever follows that token. *)
Lemma invalid_token_argument_mode (op : string) (good : list string)
    (bad : string) (rest : list string) (nums : list number) (msg : string) :
  op <> EmptyString ->
  to_numbers good = Ok nums ->
  to_number bad = Raise (ValueError msg) ->
  main lm (command_line op (good ++ bad :: rest)) []
  = ([Stderr ("Invalid numeric value: " ++ PyStr.repr bad)], Return 2).
Proof.
  intros Hop Hgood Hbad. apply main_over.
  unfold resolve, command_line, operation, numbers.
  apply String.eqb_neq in Hop. rewrite Hop.
  unfold from_arguments.
  rewrite (to_floats_invalid good bad rest nums msg Hgood Hbad).
  now destruct good.
Qed.

(** C5: a token that is not a number stops the conversion with an
    error that shows the token, in both modes alike; but only the
    argument mode turns it into exit code 2.  In an interactive
    session the [ValueError] leaves [main], and the process ends with
    a traceback and status 1. *)
Theorem invalid_token_interactive_uncaught :
  main lm no_arguments [Line "add"; Line "1 abc 2"]
  = (banner
       ++ [Prompt "Operation: "; Prompt "Enter numbers separated by space: "],
     Uncaught (ValueError "Invalid numeric value: 'abc'"))
  /\ exit_status (snd (main lm no_arguments [Line "add"; Line "1 abc 2"])) = 1
  /\ main lm (command_line "add" ["1"; "abc"; "2"]%string) []
     = ([Stderr "Invalid numeric value: 'abc'"], Return 2).
Proof. repeat split. Qed.

End Tokens.

(** ** Zero operands *)

Section ZeroOperands.

Variable lm : Libm.

(** [add], [subtract] and [multiply] raise on no operands at all. *)
Lemma sum_difference_product_complete (first : float) (rest : list float) :
  call lm Add (first :: rest) = Ok (VFloat (add (first :: rest)))
  /\ call lm Subtract (first :: rest) = Ok (VFloat (subtract first rest))
  /\ call lm Multiply (first :: rest) = Ok (VFloat (multiply (first :: rest))).
Proof. now repeat split. Qed.

(** [power] with a zero among its two operands: it raises exactly on
    the operands of [power_fails_on], and never reaches the C
    library. *)
Lemma power_zero_operand (base exponent : float) :
  zero_valued base \/ zero_valued exponent ->
  if power_fails_on base exponent
  then power lm base exponent
       = Raise (ZeroDivisionError "0.0 cannot be raised to a negative power")
  else exists x, power lm base exponent = Ok (VFloat x).
Proof.
  unfold zero_valued, power, float_pow, power_fails_on.
  rewrite !is_zero_spec, !is_nan_spec, !is_infinity_spec, !ltb_zero_spec.
  intros H.
  destruct (Prim2SF base) as [sb|sb| |sb mb eb],
      (Prim2SF exponent) as [se|[|]| |[|] me ee];
    cbn [andb negb] in *;
    try (destruct H; discriminate);
    try (destruct (abs base =? 1)%float);
    try (destruct (Bool.eqb _ _));
    try (eexists; reflexivity); try reflexivity.
Qed.

(** C6 as amended: on arity-valid operands that hold a zero, [add],
    [subtract] and [multiply] complete without error, and so does
    [power] unless the base is zero and the exponent is negative and
    not infinite; on these operands [power] raises
    [ZeroDivisionError], and [main] ends with exit code 3. *)
Theorem zero_operands_complete_but_power (nums : list float) :
  Exists zero_valued nums ->
  (exists first rest,
      nums = first :: rest
      /\ call lm Add nums = Ok (VFloat (add nums))
      /\ call lm Subtract nums = Ok (VFloat (subtract first rest))
      /\ call lm Multiply nums = Ok (VFloat (multiply nums)))
  /\ (forall base exponent,
         nums = [base; exponent] ->
         if power_fails_on base exponent
         then call lm Power nums
              = Raise (ZeroDivisionError
                         "0.0 cannot be raised to a negative power")
              /\ dispatch lm "pow" nums
                 = ([Stderr "Error: 0.0 cannot be raised to a negative power"],
                    Return 3)
         else exists x, call lm Power nums = Ok (VFloat x)).
Proof.
  intros Hz. split.
  - destruct nums as [|first rest]; [inversion Hz|].
    exists first, rest. split; [reflexivity|].
    apply sum_difference_product_complete.
  - intros base exponent ->.
    assert (H : zero_valued base \/ zero_valued exponent).
    { inversion Hz as [? ? H0|? ? H0]; subst; [now left|].
      inversion H0 as [? ? H1|? ? H1]; subst; [now right|inversion H1]. }
    pose proof (power_zero_operand base exponent H) as Hp.
    destruct (power_fails_on base exponent); cbn [call]; [|exact Hp].
    split; [exact Hp|].
    unfold dispatch. cbn -[power]. now rewrite Hp.
Qed.

End ZeroOperands.

Lemma zero_operands_complete_but_power_witness :
  call libm_sample Add [0; 5]%float = Ok (VFloat 5)
  /\ exists x, call libm_sample Power [0; 2]%float = Ok (VFloat x).
Proof.
  assert (Hz : Exists zero_valued [0; 5]%float) by (left; reflexivity).
  assert (Hz' : Exists zero_valued [0; 2]%float) by (left; reflexivity).
  split.
  - destruct (proj1 (zero_operands_complete_but_power libm_sample _ Hz))
      as (first & rest & _ & Ha & _).
    rewrite Ha. reflexivity.
  - exact (proj2 (zero_operands_complete_but_power libm_sample _ Hz')
             0%float 2%float eq_refl).
Defined.

(** C6 as stated fails: a zero base with a negative exponent makes
    [power] raise [ZeroDivisionError], and the process exits with
    code 3. *)
Lemma power_of_zero_fails :
  power libm_sample 0 (-1)
  = Raise (ZeroDivisionError "0.0 cannot be raised to a negative power")
  /\ main libm_sample (command_line "pow" ["0"; "-1"]%string) []
     = ([Stderr "Error: 0.0 cannot be raised to a negative power"], Return 3).
Proof. split; reflexivity. Qed.

(** ** The display of the result *)

Example show_integral : show (VFloat 6) = ([Stdout (Str "6")], Return 0).
Proof. reflexivity. Qed.

Example show_fraction :
  show (VFloat 2.5) = ([Stdout (FloatRepr 2.5)], Return 0).
Proof. reflexivity. Qed.

(** The tolerance is strict, and it is the float nearest to [1e-12]. *)
Example show_at_tolerance :
  show (VFloat 1e-12) = ([Stdout (FloatRepr 1e-12)], Return 0)
  /\ show (VFloat 0x1.19799812dea10p-40) = ([Stdout (Str "0")], Return 0).
Proof. split; reflexivity. Qed.

Lemma round_half_even_bounds (m e : Z) :
  0 <= m -> e < 0 -> 0 <= round_half_even m e <= m / 2 + 1.
Proof.
  intros Hm He. unfold round_half_even.
  replace (0 <=? e) with false by (symmetry; apply Z.leb_gt; lia).
  set (d := 2 ^ (- e)).
  assert (Hd : 2 <= d) by (apply pow_ge_2; lia).
  assert (Hq : 0 <= m / d <= m / 2).
  { split; [apply Z.div_pos; lia|].
    apply Z.div_le_compat_l; lia. }
  cbv zeta.
  destruct (2 * (m mod d) ?= d); [destruct (Z.even (m / d))| |]; lia.
Qed.

(** An integer that is not above a float of the format converts to a
    float. *)
Lemma int_to_float_ok (n : Z) (m2 : positive) (e2 : Z) :
  bounded prec emax m2 e2 = true ->
  Z.abs n * 2 ^ 1074 <= scaled m2 e2 ->
  exists y, int_to_float n = Ok y.
Proof.
  intros Hb Hn. unfold int_to_float.
  assert (H : is_infinity (SF2Prim (binary_normalize prec emax n 0 false)) = false).
  { rewrite is_infinity_spec.
    destruct n as [|p|p]; cbn [binary_normalize].
    - reflexivity.
    - destruct (binary_round_le false p 0 m2 e2) as (m & e & Hr & Hv & _);
        [lia|exact Hb|exact Hn|].
      now rewrite Hr, Prim2SF_SF2Prim.
    - destruct (binary_round_le true p 0 m2 e2) as (m & e & Hr & Hv & _);
        [lia|exact Hb|exact Hn|].
      now rewrite Hr, Prim2SF_SF2Prim. }
  rewrite H. eauto.
Qed.

(** Every finite result is displayed, on one line of standard output,
    and [main] returns 0. *)
Lemma show_finite (x : float) :
  is_finite x = true ->
  exists t, show (VFloat x) = ([Stdout t], Return 0).
Proof.
  unfold is_finite. rewrite is_nan_spec, is_infinity_spec. intros Hx.
  pose proof (Prim2SF_valid x) as Hv.
  unfold show, round.
  destruct (Prim2SF x) as [s|s| |s m e] eqn:Ex; try discriminate Hx.
  - cbn [bind]. unfold sub_int.
    change (int_to_float 0) with (Ok 0%float). cbn [bind].
    destruct (abs (x - 0) <? 1e-12)%float; eauto.
  - cbn [valid_binary] in Hv. cbn [bind]. unfold sub_int.
    assert (H : exists y,
               int_to_float (cond_Zopp s (round_half_even (Zpos m) e)) = Ok y).
    { destruct (Z.le_gt_cases 0 e) as [He | He].
      - apply (int_to_float_ok _ m e Hv).
        unfold round_half_even.
        replace (0 <=? e) with true by (symmetry; apply Z.leb_le; lia).
        assert (0 <= 2 ^ e) by (apply Z.pow_nonneg; lia).
        replace (Z.abs (cond_Zopp s (Zpos m * 2 ^ e))) with (Zpos m * 2 ^ e)
          by (destruct s; cbn [cond_Zopp]; lia).
        unfold scaled. rewrite Z.pow_add_r by lia. lia.
      - apply (int_to_float_ok _ 4503599627370496%positive 1 eq_refl).
        pose proof (round_half_even_bounds (Zpos m) e ltac:(lia) He) as Hb.
        destruct (bounded_digits _ _ Hv) as [Hm _].
        replace (Z.abs (cond_Zopp s (round_half_even (Zpos m) e)))
          with (round_half_even (Zpos m) e)
          by (destruct s; cbn [cond_Zopp]; lia).
        assert (Zpos m / 2 < 2 ^ 52)
          by (apply Z.div_lt_upper_bound; [lia|exact Hm]).
        unfold scaled.
        change (2 ^ 52) with 4503599627370496 in *.
        apply Z.mul_le_mono_nonneg; lia. }
    destruct H as [y Hy]. rewrite Hy. cbn [bind].
    destruct (abs (x - y) <? 1e-12)%float; eauto.
Qed.

Section Display.

Variable lm : Libm.

(** An infinite or NaN result is not displayed at all: [round] raises
    outside the [try], and the exception leaves [main]. *)
Lemma show_infinity :
  show (VFloat infinity)
  = ([], Uncaught (OverflowError "cannot convert float infinity to integer")).
Proof. reflexivity. Qed.

Lemma show_nan :
  show (VFloat nan)
  = ([], Uncaught (ValueError "cannot convert float NaN to integer")).
Proof. reflexivity. Qed.

(** C7: a result is displayed as an integer when it is within [1e-12]
    of one and as the float it is otherwise, but not every computed
    result is displayed: a product that overflows to infinity makes
    [round] raise, nothing is printed, and the process ends with a
    traceback and status 1. *)
Theorem infinite_result_not_displayed :
  multiply [1e200; 1e200]%float = infinity
  /\ main lm (command_line "mul" ["1e200"; "1e200"]%string) []
     = ([], Uncaught (OverflowError "cannot convert float infinity to integer"))
  /\ exit_status
       (snd (main lm (command_line "mul" ["1e200"; "1e200"]%string) [])) = 1.
Proof. repeat split. Qed.

End Display.

(** ** Where errors are written *)

Section Streams.

Variable lm : Libm.

Lemma on_stderr_app (out1 out2 : list event) :
  on_stderr (out1 ++ out2) = on_stderr out1 ++ on_stderr out2.
Proof. apply flat_map_app. Qed.

Lemma show_returns_0 (result : value) (c : Z) :
  snd (show result) = Return c -> c = 0.
Proof.
  unfold show. destruct result as [x|re im]; [|discriminate].
  destruct (n <- round x ;; d <- sub_int x n ;; Ok (n, d)) as [[n d]|e];
    [|discriminate].
  destruct (abs d <? 1e-12)%float; now intros [= <-].
Qed.

(** Whenever [dispatch] returns another code than 0, it has written on
    standard error. *)
Lemma dispatch_error_on_stderr (op : string) (nums : list float) (c : Z) :
  snd (dispatch lm op nums) = Return c -> c <> 0 ->
  on_stderr (fst (dispatch lm op nums)) <> [].
Proof.
  unfold dispatch. destruct (lookup op) as [[f desc]|]; [|discriminate].
  destruct (arity_complaint op (List.length nums)); [discriminate|].
  destruct (call lm f nums) as [result|[]]; try discriminate.
  intros H Hc. now apply show_returns_0 in H.
Qed.

(** X3: every run of [main] that returns another code than 0 has
    written on standard error, but for the unknown operation of an
    interactive session. *)
Lemma error_on_stderr_but_unknown (args : Namespace) (stdin : list input_event)
    (c : Z) :
  snd (main lm args stdin) = Return c -> c <> 0 ->
  on_stderr (fst (main lm args stdin)) <> []
  \/ (interactive_mode args
      /\ exists line rest,
          stdin = Line line :: rest /\ known (PyStr.strip line) = false).
Proof.
  unfold main. destruct (resolve args stdin) as [out [op nums|o]] eqn:Hr.
  - pose proof (dispatch_error_on_stderr op nums c) as Hd.
    destruct (dispatch lm op nums) as [out' o]. cbn [fst snd] in *.
    intros Ho Hc. left. rewrite on_stderr_app.
    specialize (Hd Ho Hc). destruct (on_stderr out'); [contradiction|].
    now destruct (on_stderr out).
  - cbn [fst snd]. intros -> Hc. unfold resolve in Hr.
    assert (Hint : interactive stdin = (out, Over (Return c)) ->
                   exists line rest,
                     stdin = Line line :: rest
                     /\ known (PyStr.strip line) = false).
    { clear Hr. unfold interactive.
      destruct stdin as [|[line| |] rest]; cbn [input interactive_except];
        try (intros [= _ <-]; contradiction).
      destruct (known (PyStr.strip line)) eqn:Hk; cbn [negb];
        [|intros _; eauto].
      destruct rest as [|[line2| |] rest']; cbn [input interactive_except];
        try (intros [= _ <-]; contradiction).
      destruct (_to_floats _) as [nums|e]; [discriminate|].
      destruct e; cbn [interactive_except]; try discriminate;
        intros [= _ <-]; contradiction. }
    unfold interactive_mode.
    destruct (operation args) as [op|]; [|right; auto].
    destruct (String.eqb_spec op EmptyString) as [Hop|Hop]; [right; auto|].
    left. unfold from_arguments in Hr.
    destruct (numbers args) as [|tok toks]; [now injection Hr as <- _|].
    destruct (_to_floats (tok :: toks)) as [nums|[]]; try discriminate Hr.
    now injection Hr as <- _.
Qed.

(** C8: errors go to standard error, except the unknown operation of
    an interactive session: its message is printed on standard output,
    and standard error stays empty. *)
Theorem unknown_operation_on_stdout :
  main lm no_arguments [Line "foo"]
  = (banner ++ [Prompt "Operation: "; Stdout (Str "Unknown operation")],
     Return 2)
  /\ on_stderr (fst (main lm no_arguments [Line "foo"])) = [].
Proof. split; reflexivity. Qed.

End Streams.

(** ** Abandoned prompts *)

Section Interactive.

Variable lm : Libm.

Lemma interactive_abandoned_first (stdin : list input_event) :
  abandoned stdin ->
  interactive stdin
  = (banner ++ [Prompt "Operation: "; Stdout (Str "")], Over (Return 0)).
Proof. destruct stdin as [|[line| |] rest]; [reflexivity|contradiction|reflexivity..]. Qed.

Lemma interactive_abandoned_second (line : string) (rest : list input_event) :
  known (PyStr.strip line) = true ->
  abandoned rest ->
  interactive (Line line :: rest)
  = (banner
       ++ [Prompt "Operation: "; Prompt "Enter numbers separated by space: ";
           Stdout (Str "")],
     Over (Return 0)).
Proof.
  intros Hop Hrest. unfold interactive. cbn [input]. rewrite Hop. cbn [negb].
  destruct rest as [|[line2| |] rest]; [reflexivity|contradiction|reflexivity..].
Qed.

(** C9: in an interactive session, the end of the input or an
    interrupt at either prompt ends [main] with 0: the process exits
    with code 0, and nothing is written on standard error. *)
Theorem abandoned_prompt_exit_0 (args : Namespace) (stdin : list input_event) :
  interactive_mode args ->
  abandoned_session stdin ->
  snd (main lm args stdin) = Return 0
  /\ exit_status (snd (main lm args stdin)) = 0
  /\ on_stderr (fst (main lm args stdin)) = [].
Proof.
  intros Hargs Hs.
  assert (H : exists out, resolve args stdin = (out, Over (Return 0))
                          /\ on_stderr out = []).
  { assert (Hi : resolve args stdin = interactive stdin).
    { unfold resolve, interactive_mode in *.
      destruct (operation args) as [op|]; [now subst op|reflexivity]. }
    rewrite Hi.
    destruct Hs as [H1 | (line & rest & -> & Hop & H2)].
    - rewrite (interactive_abandoned_first _ H1). now eexists.
    - rewrite (interactive_abandoned_second _ _ Hop H2). now eexists. }
  destruct H as (out & Hr & Herr).
  rewrite (main_over lm _ _ _ _ Hr). now cbn.
Qed.

End Interactive.

Lemma abandoned_prompt_exit_0_witness :
  snd (main libm_sample no_arguments [Interrupt]) = Return 0
  /\ snd (main libm_sample no_arguments [Line " mod "; EndOfInput]) = Return 0.
Proof.
  split.
  - apply (abandoned_prompt_exit_0 libm_sample no_arguments [Interrupt]).
    + exact I.
    + left. exact I.
  - apply (abandoned_prompt_exit_0 libm_sample no_arguments
             [Line " mod "; EndOfInput]).
    + exact I.
    + right. exists " mod "%string, [EndOfInput]. repeat split.
Defined.

(** ** The remainder *)

Module Remainder.

(** [fmod] of two finite floats: a zero with the sign of the first, or
    a float with the sign of the first and strictly under the second in
    absolute value. *)
Lemma fmod_finite (a b : float) (sa sb : bool) (ma mb : positive) (ea eb : Z) :
  Prim2SF a = S754_finite sa ma ea ->
  Prim2SF b = S754_finite sb mb eb ->
  Prim2SF (fmod a b) = S754_zero sa
  \/ exists m e,
      Prim2SF (fmod a b) = S754_finite sa m e
      /\ bounded prec emax m e = true
      /\ scaled m e < scaled mb eb.
Proof.
  intros Ha Hb.
  pose proof (Prim2SF_valid a) as Va. pose proof (Prim2SF_valid b) as Vb.
  rewrite Ha in Va. rewrite Hb in Vb. cbn [valid_binary] in Va, Vb.
  destruct (bounded_digits _ _ Va) as [Hma Hea].
  destruct (bounded_digits _ _ Vb) as [Hmb Heb].
  unfold fmod. rewrite Ha, Hb.
  set (e := Z.min ea eb).
  set (A := Zpos ma * 2 ^ (ea - e)). set (B := Zpos mb * 2 ^ (eb - e)).
  assert (HA : 0 < A) by (apply Z.mul_pos_pos; [lia|apply Z.pow_pos_nonneg; lia]).
  assert (HB : 0 < B) by (apply Z.mul_pos_pos; [lia|apply Z.pow_pos_nonneg; lia]).
  rewrite Z.rem_mod_nonneg by lia.
  pose proof (Z.mod_pos_bound A B HB) as Hr.
  assert (HrA : A mod B <= A) by (apply Z.mod_le; lia).
  destruct (A mod B) as [|r|r] eqn:Er; [| |lia].
  - left. replace (cond_Zopp sa 0) with 0 by now destruct sa.
    cbn [binary_normalize]. now apply Prim2SF_SF2Prim.
  - right. rewrite binary_normalize_signed.
    assert (Hr53 : Zpos r < 2 ^ 53).
    { destruct (Z.le_ge_cases ea eb).
      - assert (A = Zpos ma)
          by (unfold A, e; rewrite Z.min_l, Z.sub_diag by lia; cbn; lia).
        lia.
      - assert (B = Zpos mb)
          by (unfold B, e; rewrite Z.min_r, Z.sub_diag by lia; cbn; lia).
        lia. }
    destruct (binary_round_exact sa r e) as (m' & e' & Hround & Hbd & Hsc);
      [now apply digits2_le | unfold e; lia |].
    exists m', e'. rewrite Hround. split; [now apply Prim2SF_SF2Prim|].
    split; [exact Hbd|]. rewrite Hsc.
    rewrite (aligned_scaled mb eb e) by (unfold e; lia). fold B.
    unfold scaled. apply Z.mul_lt_mono_pos_r; [|lia].
    apply Z.pow_pos_nonneg; unfold e; lia.
Qed.

(** The sum of two finite floats of opposite signs, the second the
    larger in absolute value: a float with the sign of the second, and
    not above it in absolute value. *)
Lemma add_opposite (x b : float) (sx sb : bool) (mx mb : positive) (ex eb : Z) :
  Prim2SF x = S754_finite sx mx ex ->
  Prim2SF b = S754_finite sb mb eb ->
  bounded prec emax mx ex = true ->
  sx <> sb ->
  scaled mx ex < scaled mb eb ->
  exists m e,
    Prim2SF (x + b)%float = S754_finite sb m e
    /\ bounded prec emax m e = true
    /\ scaled m e <= scaled mb eb.
Proof.
  intros Hx Hb Vx Hs Hlt.
  pose proof (Prim2SF_valid b) as Vb. rewrite Hb in Vb. cbn [valid_binary] in Vb.
  destruct (bounded_digits _ _ Vx) as [_ Hex].
  destruct (bounded_digits _ _ Vb) as [_ Heb].
  rewrite add_spec, Hx, Hb. unfold SF64add. cbn [SFadd].
  set (ez := Z.min ex eb).
  pose proof (shl_align_spec mx ex ez) as HX.
  pose proof (shl_align_spec mb eb ez) as HY.
  destruct (shl_align mx ex ez) as [X eX], (shl_align mb eb ez) as [Y eY].
  cbn [fst]. destruct HX as (HeX & HX & _), HY as (HeY & HY & _).
  replace eX with ez in * by (unfold ez in *; lia).
  replace eY with ez in * by (unfold ez in *; lia).
  clear HeX HeY.
  assert (HP : 0 < 2 ^ (ez + 1074)) by (apply Z.pow_pos_nonneg; unfold ez; lia).
  assert (HsX : scaled mx ex = Zpos X * 2 ^ (ez + 1074))
    by (rewrite (aligned_scaled mx ex ez), HX by (unfold ez; lia); reflexivity).
  assert (HsY : scaled mb eb = Zpos Y * 2 ^ (ez + 1074))
    by (rewrite (aligned_scaled mb eb ez), HY by (unfold ez; lia); reflexivity).
  assert (HXY : Zpos X < Zpos Y).
  { rewrite HsX, HsY in Hlt. apply Z.mul_lt_mono_pos_r in Hlt; assumption. }
  assert (Hsum : cond_Zopp sx (Zpos X) + cond_Zopp sb (Zpos Y)
                 = cond_Zopp sb (Zpos Y - Zpos X)).
  { destruct sx, sb; try congruence; cbn [cond_Zopp]; lia. }
  rewrite Hsum.
  destruct (Zpos Y - Zpos X) as [|d|d] eqn:Ed; try lia.
  rewrite binary_normalize_signed.
  destruct (binary_round_le sb d ez mb eb) as (m & e & Hround & Hbd & Hsc).
  - unfold ez. lia.
  - exact Vb.
  - rewrite HsY. unfold scaled. apply Z.mul_le_mono_nonneg_r; lia.
  - exists m, e. now rewrite Hround.
Qed.

(** Comparisons of absolute values, read on the scaled values. *)
Lemma abs_ltb_finite (r b : float) (sr sb : bool) (mr mb : positive) (er eb : Z) :
  Prim2SF r = S754_finite sr mr er ->
  Prim2SF b = S754_finite sb mb eb ->
  bounded prec emax mr er = true ->
  bounded prec emax mb eb = true ->
  (abs r <? abs b)%float = (scaled mr er <? scaled mb eb)
  /\ (abs r <=? abs b)%float = (scaled mr er <=? scaled mb eb).
Proof.
  intros Hr Hb Vr Vb.
  rewrite ltb_spec, leb_spec, !abs_spec, Hr, Hb. cbn [SFabs].
  unfold SFltb, SFleb. rewrite (compare_of_scaled _ _ _ _ Vr Vb).
  unfold Z.ltb, Z.leb. now destruct (scaled mr er ?= scaled mb eb).
Qed.

End Remainder.

Section Modulo.

Import Remainder.

(** The zero that [%] returns for a zero remainder. *)
Lemma zero_result (b : float) :
  is_nan b = false -> is_zero b = false ->
  is_zero (zero_signed_as b) = true
  /\ (abs (zero_signed_as b) <? abs b)%float = true
  /\ (abs (zero_signed_as b) <=? abs b)%float = true.
Proof.
  rewrite is_nan_spec, is_zero_spec. intros Hn Hz.
  assert (Ha : Prim2SF (abs (zero_signed_as b)) = S754_zero false)
    by (unfold zero_signed_as; now destruct (get_sign b)).
  split; [unfold zero_signed_as; now destruct (get_sign b)|].
  rewrite ltb_spec, leb_spec, Ha, abs_spec.
  now destruct (Prim2SF b) as [s|s| |s m e].
Qed.

(** C10 as amended: for every finite [a] and every [b] that is neither
    zero nor NaN, [modulo a b] is zero or has the sign of [b], and its
    absolute value is at most that of [b]; it is strictly less when [a]
    is zero or has the sign of [b].  (With operands of opposite signs
    the remainder is moved by [b], and the rounding of that sum can
    reach [b] itself.) *)
Theorem modulo_sign_and_bound (a b : float) :
  is_finite a = true -> is_nan b = false -> is_zero b = false ->
  exists r,
    modulo a b = Ok r
    /\ zero_or_sign_of r b
    /\ (abs r <=? abs b)%float = true
    /\ (is_zero a = true \/ (a <? 0)%float = (b <? 0)%float ->
        (abs r <? abs b)%float = true).
Proof.
  intros Hfa Hnb Hzb.
  destruct (zero_result b Hnb Hzb) as (Z1 & Z2 & Z3).
  unfold modulo, float_rem. rewrite Hzb.
  set (m := fmod a b).
  unfold zero_or_sign_of.
  assert (Hzero : is_zero m = true ->
                  exists r,
                    (if negb (is_zero m)
                     then if xorb (b <? 0)%float (m <? 0)%float
                          then Ok (m + b)%float else Ok m
                     else Ok (zero_signed_as b)) = Ok r
                    /\ (is_zero r = true \/ (r <? 0)%float = (b <? 0)%float)
                    /\ (abs r <=? abs b)%float = true
                    /\ (is_zero a = true \/ (a <? 0)%float = (b <? 0)%float ->
                        (abs r <? abs b)%float = true)).
  { intros ->. exists (zero_signed_as b). cbn [negb]. auto. }
  unfold is_finite in Hfa. rewrite is_nan_spec, is_infinity_spec in Hfa.
  rewrite is_nan_spec in Hnb. rewrite is_zero_spec in Hzb.
  destruct (Prim2SF a) as [sa|sa| |sa ma ea] eqn:Ea; try discriminate Hfa;
    destruct (Prim2SF b) as [sb|sb| |sb mb eb] eqn:Eb;
    try discriminate Hnb; try discriminate Hzb; clear Hfa Hnb Hzb.
  - (* a zero, b infinite *)
    apply Hzero. unfold m, fmod. rewrite Ea, Eb. now rewrite is_zero_spec, Ea.
  - (* a zero, b finite *)
    apply Hzero. unfold m, fmod. rewrite Ea, Eb. now rewrite is_zero_spec, Ea.
  - (* a finite, b infinite *)
    clear Hzero.
    assert (Hm : m = a) by (unfold m, fmod; now rewrite Ea, Eb). rewrite Hm.
    rewrite (is_zero_spec a), !ltb_zero_spec, Ea, Eb. cbn [negb].
    destruct sa, sb; cbn [xorb].
    + exists a. repeat split.
      * right. now rewrite ltb_zero_spec, Ea.
      * now rewrite leb_spec, !abs_spec, Ea, Eb.
      * intros _. now rewrite ltb_spec, !abs_spec, Ea, Eb.
    + exists (a + b)%float.
      assert (Hr : Prim2SF (a + b)%float = S754_infinity false)
        by now rewrite add_spec, Ea, Eb.
      repeat split.
      * right. now rewrite ltb_zero_spec, Hr.
      * now rewrite leb_spec, !abs_spec, Hr, Eb.
      * intros [H | H]; discriminate H.
    + exists (a + b)%float.
      assert (Hr : Prim2SF (a + b)%float = S754_infinity true)
        by now rewrite add_spec, Ea, Eb.
      repeat split.
      * right. now rewrite ltb_zero_spec, Hr.
      * now rewrite leb_spec, !abs_spec, Hr, Eb.
      * intros [H | H]; discriminate H.
    + exists a. repeat split.
      * right. now rewrite ltb_zero_spec, Ea.
      * now rewrite leb_spec, !abs_spec, Ea, Eb.
      * intros _. now rewrite ltb_spec, !abs_spec, Ea, Eb.
  - (* a finite, b finite *)
    pose proof (Prim2SF_valid b) as Vb. rewrite Eb in Vb. cbn [valid_binary] in Vb.
    destruct (fmod_finite a b sa sb ma mb ea eb Ea Eb)
      as [Em | (m' & e' & Em & Vm & Hlt)]; fold m in Em.
    + apply Hzero. now rewrite is_zero_spec, Em.
    + clear Hzero.
      rewrite (is_zero_spec m), (ltb_zero_spec m), (ltb_zero_spec b), Em, Eb.
      rewrite (ltb_zero_spec a), (is_zero_spec a), Ea.
      cbn [negb].
      destruct (abs_ltb_finite m b sa sb m' mb e' eb Em Eb Vm Vb) as [Hl Hle].
      destruct (Bool.bool_dec sa sb) as [<- | Hs].
      * rewrite xorb_nilpotent. exists m. split; [reflexivity|].
        split; [right; now rewrite (ltb_zero_spec m), Em|].
        rewrite Hl, Hle. split; [apply Z.leb_le; lia|].
        intros _. now apply Z.ltb_lt.
      * replace (xorb sb sa) with true by (now destruct sa, sb).
        destruct (add_opposite m b sa sb m' mb e' eb Em Eb Vm Hs Hlt)
          as (m2 & e2 & Er & Vr & Hr).
        exists (m + b)%float. split; [reflexivity|].
        split; [right; now rewrite (ltb_zero_spec (m + b)), Er|].
        destruct (abs_ltb_finite (m + b) b sb sb m2 mb e2 eb Er Eb Vr Vb)
          as [_ Hle2].
        rewrite Hle2. split; [now apply Z.leb_le|].
        intros [H | H]; [discriminate H|congruence].
Qed.

End Modulo.

Lemma modulo_sign_and_bound_witness :
  exists r, modulo (-10) 3 = Ok r /\ zero_or_sign_of r 3
            /\ (abs r <? abs 3)%float = true.
Proof.
  destruct (modulo_sign_and_bound (-10) 3 eq_refl eq_refl eq_refl)
    as (r & Hr & Hs & _ & _).
  exists r. split; [exact Hr|]. split; [exact Hs|].
  injection Hr as <-. reflexivity.
Defined.

(** C10 as stated fails: the remainder of a tiny negative number by 1 is
    1 itself, not strictly less than 1. *)
Lemma modulo_reaches_divisor :
  modulo (-1e-20) 1 = Ok 1%float /\ (abs 1 <? abs 1)%float = false.
Proof. split; reflexivity. Qed.

(** The same operands in an interactive session. *)
Example modulo_reaches_divisor_session :
  snd (main libm_sample no_arguments [Line "mod"; Line "-1e-20 1"])
  = Return 0
  /\ In (Stdout (Str "1"))
       (fst (main libm_sample no_arguments [Line "mod"; Line "-1e-20 1"])).
Proof. split; [reflexivity|]. vm_compute. intuition. Qed.

Example modulo_10_3 : modulo 10 3 = Ok 1%float.
Proof. reflexivity. Qed.

Example modulo_signs :
  modulo (-10) 3 = Ok 2%float /\ modulo 10 (-3) = Ok (-2)%float.
Proof. split; reflexivity. Qed.

(** ** The scenarios of the specification and the unit tests *)

Section Scenarios.

Variable lm : Libm.

Example scenario_add :
  main lm (command_line "add" ["1"; "2"; "3"]%string) []
  = ([Stdout (Str "6")], Return 0).
Proof. reflexivity. Qed.

Example scenario_div :
  main lm (command_line "div" ["20"; "2"; "2"]%string) []
  = ([Stdout (Str "5")], Return 0).
Proof. reflexivity. Qed.

Example scenario_div_by_zero :
  main lm (command_line "div" ["1"; "0"]%string) []
  = ([Stderr "Error: Division by zero"], Return 3).
Proof. reflexivity. Qed.

(** [pow 2 3] ends in the C library, which has to return 8. *)
Example scenario_pow :
  pow lm 2 3 = Ok 8%float ->
  main lm (command_line "pow" ["2"; "3"]%string) []
  = ([Stdout (Str "8")], Return 0).
Proof.
  intros H. vm_compute in H. vm_compute. now rewrite H.
Qed.

Example scenario_mod :
  main lm (command_line "mod" ["10"; "3"]%string) []
  = ([Stdout (Str "1")], Return 0)
  /\ snd (main lm (command_line "mod" ["10"; "0"]%string) []) = Return 3.
Proof. split; reflexivity. Qed.

Example scenario_interrupt :
  snd (main lm no_arguments [Interrupt]) = Return 0
  /\ on_stderr (fst (main lm no_arguments [Interrupt])) = [].
Proof. split; reflexivity. Qed.

Example scenario_fraction :
  main lm (command_line "add" ["0.1"; "0.2"]%string) []
  = ([Stdout (FloatRepr 0.30000000000000004)], Return 0).
Proof. reflexivity. Qed.

End Scenarios.

Example test_subtract : subtract 10 [1; 2]%float = 7%float.
Proof. reflexivity. Qed.

Example test_divide : divide 20 [2; 2]%float = Ok 5%float.
Proof. reflexivity. Qed.

Example test_divide_by_zero :
  divide 1 [0%float] = Raise (ZeroDivisionError "Division by zero").
Proof. reflexivity. Qed.

Example test_modulo_by_zero :
  modulo 10 0 = Raise (ZeroDivisionError "Modulo by zero").
Proof. reflexivity. Qed.

(** * Further properties of the program *)

(** ** The conversion of the tokens *)

Lemma to_numbers_forall2 (strs : list string) (ns : list number) :
  to_numbers strs = Ok ns <-> Forall2 (fun s n => to_number s = Ok n) strs ns.
Proof.
  revert ns. induction strs as [|s strs IH]; intros ns; cbn [to_numbers].
  - split; [intros [= <-]; constructor|intros H; now inversion H].
  - destruct (to_number s) as [n|e] eqn:En.
    + destruct (to_numbers strs) as [ns'|e] eqn:E; cbn [bind].
      * split.
        -- intros [= <-]. constructor; [exact En|now apply IH].
        -- intros H. inversion H as [|? n' ? ns'' Hn Hrest]; subst.
           apply IH in Hrest. congruence.
      * split; [discriminate|].
        intros H. inversion H as [|? n' ? ns'' Hn Hrest]; subst.
        apply IH in Hrest. discriminate.
    + split.
      * destruct e; discriminate.
      * intros H. inversion H; subst. congruence.
Qed.

Lemma floats_of_forall2 (ns : list number) (xs : list float) :
  floats_of ns = Ok xs <-> Forall2 (fun n x => float_of_number n = Ok x) ns xs.
Proof.
  revert xs. induction ns as [|n ns IH]; intros xs; cbn [floats_of].
  - split; [intros [= <-]; constructor|intros H; now inversion H].
  - destruct (float_of_number n) as [x|e] eqn:En; cbn [bind].
    + destruct (floats_of ns) as [xs'|e] eqn:E; cbn [bind].
      * split.
        -- intros [= <-]. constructor; [exact En|now apply IH].
        -- intros H. inversion H as [|? x' ? xs'' Hx Hrest]; subst.
           apply IH in Hrest. congruence.
      * split; [discriminate|].
        intros H. inversion H as [|? x' ? xs'' Hx Hrest]; subst.
        apply IH in Hrest. discriminate.
    + split; [discriminate|].
      intros H. inversion H; subst. congruence.
Qed.

(** X4: [_to_floats] succeeds exactly when every token converts, and then
    gives one number per token, in the order of the tokens, each the
    conversion of its own token. *)
Theorem to_floats_elementwise (strs : list string) (nums : list float) :
  _to_floats strs = Ok nums <-> Forall2 converts_to strs nums.
Proof.
  unfold _to_floats, converts_to. split.
  - destruct (to_numbers strs) as [ns|e] eqn:E; cbn [bind]; [|discriminate].
    intros H. apply to_numbers_forall2 in E. apply floats_of_forall2 in H.
    clear - E H. revert nums H.
    induction E as [|s n strs ns Hs _ IH]; intros nums H;
      inversion H; subst; constructor; eauto.
  - intros H.
    assert (Hns : exists ns,
               Forall2 (fun s n => to_number s = Ok n) strs ns
               /\ Forall2 (fun n x => float_of_number n = Ok x) ns nums).
    { induction H as [|s x strs nums (n & Hn & Hx) _ (ns & H1 & H2)].
      - exists []. split; constructor.
      - exists (n :: ns). split; constructor; assumption. }
    destruct Hns as (ns & H1 & H2).
    apply to_numbers_forall2 in H1. apply floats_of_forall2 in H2.
    now rewrite H1.
Qed.

Lemma to_numbers_raises (strs : list string) (e : exn) :
  to_numbers strs = Raise e ->
  exists s, In s strs
            /\ e = ValueError ("Invalid numeric value: " ++ PyStr.repr s).
Proof.
  induction strs as [|s strs IH]; cbn [to_numbers]; [discriminate|].
  destruct (to_number s) as [n|e'] eqn:En.
  - destruct (to_numbers strs) as [ns|e''] eqn:E; cbn [bind]; [discriminate|].
    intros [= <-]. destruct (IH eq_refl) as (s' & Hin & He).
    exists s'. split; [now right|exact He].
  - destruct (to_number_raises_value_error s e' En) as [msg ->].
    intros [= <-]. exists s. split; [now left|reflexivity].
Qed.

Lemma floats_of_raises (ns : list number) (e : exn) :
  floats_of ns = Raise e ->
  e = OverflowError "int too large to convert to float".
Proof.
  induction ns as [|n ns IH]; cbn [floats_of]; [discriminate|].
  destruct (float_of_number n) as [x|e'] eqn:En; cbn [bind].
  - destruct (floats_of ns) as [xs|e'']; cbn [bind]; [discriminate|].
    intros [= <-]. now apply IH.
  - intros [= <-]. destruct n as [z|x]; cbn [float_of_number] in En;
      [|discriminate].
    unfold int_to_float in En. destruct (is_infinity _); congruence.
Qed.

(** X5: [_to_floats] fails in two ways only: with the program's
    [ValueError], which shows one of the tokens, or with the
    [OverflowError] of an integer token beyond the largest float. *)
Theorem to_floats_raises (strs : list string) (e : exn) :
  _to_floats strs = Raise e ->
  (exists s, In s strs
             /\ e = ValueError ("Invalid numeric value: " ++ PyStr.repr s))
  \/ e = OverflowError "int too large to convert to float".
Proof.
  unfold _to_floats. destruct (to_numbers strs) as [ns|e'] eqn:E; cbn [bind].
  - intros H. right. now apply floats_of_raises in H.
  - intros [= <-]. left. now apply to_numbers_raises.
Qed.

Lemma to_floats_raises_witness :
  _to_floats ["3"; "4x"; "y"]%string
  = Raise (ValueError "Invalid numeric value: '4x'")
  /\ ((exists s, In s ["3"; "4x"; "y"]%string
                 /\ ValueError "Invalid numeric value: '4x'"
                    = ValueError ("Invalid numeric value: " ++ PyStr.repr s))
      \/ ValueError "Invalid numeric value: '4x'"
         = OverflowError "int too large to convert to float").
Proof.
  split; [reflexivity|].
  apply (to_floats_raises ["3"; "4x"; "y"]%string). reflexivity.
Defined.

(** ** The exit codes *)

Lemma known_cases (op : string) :
  known op = true ->
  (op = "add" \/ op = "sub" \/ op = "mul" \/ op = "div" \/ op = "pow"
   \/ op = "mod")%string.
Proof.
  unfold known, lookup, OP_MAP. cbn [find fst].
  repeat match goal with
         | |- context [String.eqb ?a op] =>
             destruct (String.eqb_spec a op) as [<-|_]; [tauto|]
         end.
  discriminate.
Qed.

Lemma nonzero_or_zero (rest : list float) :
  Forall (fun r => is_zero r = false) rest \/ Exists zero_valued rest.
Proof.
  induction rest as [|r rest [IH|IH]].
  - left. constructor.
  - destruct (is_zero r) eqn:E.
    + right. now left.
    + left. now constructor.
  - right. now right.
Qed.

Lemma float_rem_ok (a b : float) :
  is_zero b = false -> exists r, float_rem a b = Ok r.
Proof.
  intros H. unfold float_rem. rewrite H.
  destruct (negb _); [destruct (xorb _ _)|]; eauto.
Qed.

Lemma float_pow_raises (lm : Libm) (v w : float) (e : exn) :
  float_pow lm v w = Raise e ->
  e = ZeroDivisionError "0.0 cannot be raised to a negative power"
  \/ pow lm (abs v) w = Raise e
  \/ cpow lm v w = Raise e.
Proof.
  unfold float_pow.
  repeat match goal with
         | |- context [if ?c then _ else _] => destruct c
         end; try discriminate.
  - intros [= <-]. now left.
  - destruct (cpow lm v w); [discriminate|]. cbn [bind]. intros [= <-]. auto.
  - destruct (pow lm (abs v) w); [discriminate|]. cbn [bind].
    intros [= <-]. auto.
  - destruct (pow lm (abs v) w); [discriminate|]. cbn [bind].
    intros [= <-]. auto.
Qed.

Section ExitCodes.

Variable lm : Libm.

Lemma dispatch_show (op : string) (f : func) (desc : string)
    (nums : list float) (v : value) :
  lookup op = Some (f, desc) ->
  arity_complaint op (List.length nums) = None ->
  call lm f nums = Ok v ->
  dispatch lm op nums = show v.
Proof. unfold dispatch. now intros -> -> ->. Qed.

Lemma show_not (v : value) (c : Z) : c <> 0 -> snd (show v) <> Return c.
Proof. intros Hc H. now apply show_returns_0 in H. Qed.

(** X6: [dispatch] returns 2 exactly on the counts that the checks of
    [main] refuse: [pow] and [mod] with other than two numbers; [add],
    [sub] and [mul] with none.  No count is refused for [div]. *)
Theorem dispatch_exit_2_iff (op : string) (nums : list float) :
  known op = true ->
  (snd (dispatch lm op nums) = Return 2 <-> arity_violated op nums).
Proof.
  intros Hk. split.
  - unfold arity_violated.
    apply known_cases in Hk.
    destruct Hk as [-> | [-> | [-> | [-> | [-> | ->]]]]].
    + destruct nums as [|x nums]; [auto|].
      intros H. exfalso. revert H. apply show_not. lia.
    + destruct nums as [|x nums]; [auto|].
      intros H. exfalso. revert H. apply show_not. lia.
    + destruct nums as [|x nums]; [auto|].
      intros H. exfalso. revert H. apply show_not. lia.
    + intros H. exfalso. revert H. unfold dispatch.
      destruct nums as [|first rest]; [discriminate|].
      cbn -[divide show].
      destruct (divide first rest) as [x|[]]; cbn [bind]; try discriminate.
      apply show_not. lia.
    + destruct nums as [|b [|e [|y nums]]];
        try (intros _; left; split; [reflexivity|discriminate]).
      intros H. exfalso. revert H. unfold dispatch. cbn -[power show].
      destruct (power lm b e) as [x|[]]; try discriminate.
      apply show_not. lia.
    + destruct nums as [|a [|b [|y nums]]];
        try (intros _; left; split; [reflexivity|discriminate]).
      intros H. exfalso. revert H. unfold dispatch. cbn -[modulo show].
      destruct (modulo a b) as [x|[]]; cbn [bind]; try discriminate.
      apply show_not. lia.
  - intros H. destruct (arity_violation_exit_2 lm op nums H) as [msg ->].
    reflexivity.
Qed.

(** X7: for [div] and [mod], [dispatch] returns 3 exactly when a
    divisor is zero. *)
Theorem zero_divisor_exit_3_iff (first a b : float) (rest : list float) :
  (snd (dispatch lm "div" (first :: rest)) = Return 3
   <-> Exists zero_valued rest)
  /\ (snd (dispatch lm "mod" [a; b]) = Return 3 <-> zero_valued b).
Proof.
  split; split.
  - intros H. destruct (nonzero_or_zero rest) as [Hnz|Hz]; [|exact Hz].
    exfalso. revert H. unfold dispatch. cbn -[divide show].
    rewrite (divide_nonzero _ _ Hnz). cbn [bind]. apply show_not. lia.
  - intros H. now rewrite (dispatch_div_zero lm first rest H).
  - intros H. unfold zero_valued. destruct (is_zero b) eqn:Eb; [reflexivity|].
    exfalso. revert H. unfold dispatch. cbn -[modulo show].
    unfold modulo. rewrite Eb.
    destruct (float_rem_ok a b Eb) as [r ->]. cbn [bind]. apply show_not. lia.
  - intros H. now rewrite (dispatch_mod_zero lm a b H).
Qed.

(** X8: [dispatch] returns 4 only for [div] without a number and for
    [pow] when the C library reports an error: [add], [sub], [mul] and
    [mod] never end with that code. *)
Theorem exit_4_only (op : string) (nums : list float) :
  snd (dispatch lm op nums) = Return 4 -> call_rejected lm op nums.
Proof.
  unfold call_rejected.
  destruct (known op) eqn:Hk.
  2:{ unfold dispatch. unfold known in Hk.
      destruct (lookup op) as [[f d]|]; discriminate. }
  apply known_cases in Hk.
  destruct Hk as [-> | [-> | [-> | [-> | [-> | ->]]]]].
  - destruct nums as [|x nums]; [discriminate|].
    intros H. exfalso. revert H. apply show_not. lia.
  - destruct nums as [|x nums]; [discriminate|].
    intros H. exfalso. revert H. apply show_not. lia.
  - destruct nums as [|x nums]; [discriminate|].
    intros H. exfalso. revert H. apply show_not. lia.
  - destruct nums as [|first rest]; [auto|].
    intros H. exfalso. revert H.
    destruct (nonzero_or_zero rest) as [Hnz|Hz].
    + unfold dispatch. cbn -[divide show].
      rewrite (divide_nonzero _ _ Hnz). cbn [bind]. apply show_not. lia.
    + now rewrite (dispatch_div_zero lm first rest Hz).
  - destruct nums as [|b [|e [|y nums]]]; try discriminate.
    intros H. right. split; [reflexivity|].
    revert H. unfold dispatch. cbn -[power show]. unfold power.
    destruct (float_pow lm b e) as [x|ex] eqn:Ep.
    + intros H. exfalso. revert H. apply show_not. lia.
    + apply float_pow_raises in Ep. destruct Ep as [-> | Ep]; [discriminate|].
      intros _. exists b, e, ex. auto.
  - destruct nums as [|a [|b [|y nums]]]; try discriminate.
    intros H. exfalso. revert H.
    destruct (is_zero b) eqn:Eb.
    + now rewrite (dispatch_mod_zero lm a b Eb).
    + unfold dispatch. cbn -[modulo show]. unfold modulo. rewrite Eb.
      destruct (float_rem_ok a b Eb) as [r ->]. cbn [bind].
      apply show_not. lia.
Qed.

Lemma dispatch_codes (op : string) (nums : list float) (c : Z) :
  snd (dispatch lm op nums) = Return c -> In c [0; 2; 3; 4].
Proof.
  unfold dispatch. destruct (lookup op) as [[f desc]|]; [|discriminate].
  destruct (arity_complaint op (List.length nums));
    [intros [= <-]; cbn; tauto|].
  destruct (call lm f nums) as [result|[]]; try discriminate;
    try (intros [= <-]; cbn; tauto).
  intros H. apply show_returns_0 in H as ->. now left.
Qed.

Lemma interactive_codes (stdin : list input_event) (out : list event) (c : Z) :
  interactive stdin = (out, Over (Return c)) ->
  (c = 0 \/ c = 2) /\ on_stderr out = [].
Proof.
  unfold interactive.
  destruct stdin as [|[line| |] rest]; cbn [input interactive_except];
    try (intros [= <- <-]; split; [now left|reflexivity]).
  destruct (known (PyStr.strip line)); cbn [negb];
    [|intros [= <- <-]; split; [now right|reflexivity]].
  destruct rest as [|[line2| |] rest']; cbn [input interactive_except];
    try (intros [= <- <-]; split; [now left|reflexivity]).
  destruct (_to_floats _) as [nums|e]; [discriminate|].
  destruct e; cbn [interactive_except]; try discriminate;
    intros [= <- <-]; split; try (now left); reflexivity.
Qed.

Lemma from_arguments_codes (op : string) (tokens : list string)
    (out : list event) (c : Z) :
  from_arguments op tokens = (out, Over (Return c)) -> c = 2.
Proof.
  unfold from_arguments. destruct tokens as [|tok toks]; [now intros [= _ <-]|].
  destruct (_to_floats (tok :: toks)) as [nums|[]]; try discriminate.
  now intros [= _ <-].
Qed.

Lemma resolve_codes (args : Namespace) (stdin : list input_event)
    (out : list event) (c : Z) :
  resolve args stdin = (out, Over (Return c)) ->
  (c = 0 /\ on_stderr out = []) \/ c = 2.
Proof.
  unfold resolve.
  destruct (operation args) as [op|].
  - destruct (String.eqb op EmptyString).
    + intros H. apply interactive_codes in H. tauto.
    + intros H. apply from_arguments_codes in H. tauto.
  - intros H. apply interactive_codes in H. tauto.
Qed.

Lemma resolve_silent (args : Namespace) (stdin : list input_event)
    (out : list event) (op : string) (nums : list float) :
  resolve args stdin = (out, Resolved op nums) -> on_stderr out = [].
Proof.
  assert (Hi : interactive stdin = (out, Resolved op nums) ->
               on_stderr out = []).
  { unfold interactive.
    destruct stdin as [|[line| |] rest]; cbn [input interactive_except];
      try discriminate.
    destruct (known (PyStr.strip line)); cbn [negb]; [|discriminate].
    destruct rest as [|[line2| |] rest']; cbn [input interactive_except];
      try discriminate.
    destruct (_to_floats _) as [nums'|e].
    - now intros [= <- _ _].
    - destruct e; cbn [interactive_except]; discriminate. }
  unfold resolve. destruct (operation args) as [op'|]; [|exact Hi].
  destruct (String.eqb op' EmptyString); [exact Hi|].
  unfold from_arguments. destruct (numbers args) as [|tok toks]; [discriminate|].
  destruct (_to_floats (tok :: toks)) as [nums'|[]]; try discriminate.
  now intros [= <- _ _].
Qed.

Lemma show_silent (v : value) : on_stderr (fst (show v)) = [].
Proof.
  unfold show. destruct v as [x|re im]; [|reflexivity].
  destruct (n <- round x ;; d <- sub_int x n ;; Ok (n, d)) as [[n d]|e];
    [|reflexivity].
  now destruct (abs d <? 1e-12)%float.
Qed.

Lemma dispatch_success_silent (op : string) (nums : list float) :
  snd (dispatch lm op nums) = Return 0 ->
  on_stderr (fst (dispatch lm op nums)) = [].
Proof.
  unfold dispatch. destruct (lookup op) as [[f desc]|]; [|reflexivity].
  destruct (arity_complaint op (List.length nums)); [discriminate|].
  destruct (call lm f nums) as [result|[]]; try discriminate;
    try reflexivity.
  intros _. apply show_silent.
Qed.

(** X9: whatever the arguments and the input, [main] returns no other
    code than 0, 2, 3 and 4. *)
Theorem main_return_codes (args : Namespace) (stdin : list input_event)
    (c : Z) :
  snd (main lm args stdin) = Return c -> In c [0; 2; 3; 4].
Proof.
  unfold main. destruct (resolve args stdin) as [out [op nums|o]] eqn:Hr.
  - pose proof (dispatch_codes op nums c) as Hd.
    destruct (dispatch lm op nums) as [out' o]. exact Hd.
  - cbn [snd]. intros ->. apply resolve_codes in Hr.
    destruct Hr as [[-> _] | ->]; cbn; tauto.
Qed.

(** X10: a run of [main] that returns 0 has written nothing on standard
    error. *)
Theorem success_writes_no_error (args : Namespace) (stdin : list input_event) :
  snd (main lm args stdin) = Return 0 ->
  on_stderr (fst (main lm args stdin)) = [].
Proof.
  unfold main. destruct (resolve args stdin) as [out [op nums|o]] eqn:Hr.
  - pose proof (dispatch_success_silent op nums) as Hd.
    destruct (dispatch lm op nums) as [out' o]. cbn [fst snd] in *.
    intros Ho. rewrite on_stderr_app, (Hd Ho).
    now rewrite (resolve_silent _ _ _ _ _ Hr).
  - cbn [fst snd]. intros ->. apply resolve_codes in Hr.
    destruct Hr as [[_ H]|H]; [exact H|discriminate].
Qed.

End ExitCodes.

Lemma dispatch_exit_2_iff_witness :
  known "pow" = true
  /\ (snd (dispatch libm_sample "pow" [2%float]) = Return 2
      <-> arity_violated "pow" [2%float]).
Proof.
  split; [reflexivity|].
  apply (dispatch_exit_2_iff libm_sample "pow" [2%float]). reflexivity.
Defined.

Lemma exit_4_only_witness :
  snd (dispatch libm_sample "div" []) = Return 4
  /\ call_rejected libm_sample "div" [].
Proof.
  split; [reflexivity|].
  apply (exit_4_only libm_sample "div" []). reflexivity.
Defined.

Lemma main_return_codes_witness :
  snd (main libm_sample (command_line "div" ["1"; "0"]%string) []) = Return 3
  /\ In 3 [0; 2; 3; 4].
Proof.
  split; [reflexivity|].
  apply (main_return_codes libm_sample
           (command_line "div" ["1"; "0"]%string) [] 3).
  reflexivity.
Defined.

Lemma success_writes_no_error_witness :
  snd (main libm_sample no_arguments [Line "add"; Line "1 2"]) = Return 0
  /\ on_stderr (fst (main libm_sample no_arguments [Line "add"; Line "1 2"]))
     = [].
Proof.
  split; [reflexivity|].
  apply (success_writes_no_error libm_sample no_arguments
           [Line "add"; Line "1 2"]).
  reflexivity.
Defined.

(** ** The two modes *)

Lemma to_floats_exn (strs : list string) (e : exn) :
  _to_floats strs = Raise e ->
  (exists msg, e = ValueError msg) \/ (exists msg, e = OverflowError msg).
Proof.
  unfold _to_floats. destruct (to_numbers strs) as [ns|e'] eqn:E; cbn [bind].
  - intros H. right. apply floats_of_raises in H. eauto.
  - intros [= <-]. left. apply to_numbers_raises in E as (s & _ & ->). eauto.
Qed.

Section Modes.

Variable lm : Libm.

Lemma resolve_interactive_mode (args : Namespace) (stdin : list input_event) :
  interactive_mode args -> resolve args stdin = interactive stdin.
Proof.
  unfold interactive_mode, resolve.
  destruct (operation args) as [op|]; [|reflexivity].
  now intros ->.
Qed.

Lemma resolve_command_line (op : string) (tokens : list string)
    (stdin : list input_event) :
  known op = true ->
  resolve (command_line op tokens) stdin = from_arguments op tokens.
Proof.
  intros Hk. unfold resolve, command_line. cbn [operation numbers].
  destruct (String.eqb_spec op EmptyString) as [->|_]; [discriminate|].
  reflexivity.
Qed.

(** X11: any first line that does not name an operation ends an
    interactive session at once: the message goes to standard output,
    the numbers are not asked for, and [main] returns 2. *)
Theorem unknown_operation_exit_2 (args : Namespace) (line : string)
    (rest : list input_event) :
  interactive_mode args ->
  known (PyStr.strip line) = false ->
  main lm args (Line line :: rest)
  = (banner ++ [Prompt "Operation: "; Stdout (Str "Unknown operation")],
     Return 2).
Proof.
  intros Hi Hk. apply main_over. rewrite (resolve_interactive_mode _ _ Hi).
  unfold interactive. cbn [input]. now rewrite Hk.
Qed.

(** X12: in an interactive session no failure of the conversion of the
    numbers is caught: the exception leaves [main] after the two
    prompts, with nothing on standard error, and the process ends with
    status 1. *)
Theorem conversion_failure_interactive (args : Namespace) (line1 line2 : string)
    (rest : list input_event) (e : exn) :
  interactive_mode args ->
  known (PyStr.strip line1) = true ->
  _to_floats (PyStr.split (PyStr.strip line2)) = Raise e ->
  main lm args (Line line1 :: Line line2 :: rest)
  = (banner
       ++ [Prompt "Operation: "; Prompt "Enter numbers separated by space: "],
     Uncaught e)
  /\ exit_status (snd (main lm args (Line line1 :: Line line2 :: rest))) = 1.
Proof.
  intros Hi Hk He.
  assert (H : main lm args (Line line1 :: Line line2 :: rest)
              = (banner
                   ++ [Prompt "Operation: ";
                       Prompt "Enter numbers separated by space: "],
                 Uncaught e)).
  { apply main_over. rewrite (resolve_interactive_mode _ _ Hi).
    unfold interactive. cbn [input]. rewrite Hk, He. cbn [negb].
    destruct (to_floats_exn _ _ He) as [[msg ->]|[msg ->]]; reflexivity. }
  now rewrite H.
Qed.

(** X13: an interactive session that names an operation and enters
    numbers ends as the command line with that operation and those
    tokens does, after the banner and the two prompts: the same lines
    follow, and the same exit code or exception.  The one difference
    between the modes is the token that is no number. *)
Theorem modes_agree (args : Namespace) (line1 line2 : string)
    (rest : list input_event) :
  interactive_mode args ->
  known (PyStr.strip line1) = true ->
  PyStr.split (PyStr.strip line2) <> [] ->
  (forall msg,
      _to_floats (PyStr.split (PyStr.strip line2)) <> Raise (ValueError msg)) ->
  let by_arguments :=
    main lm (command_line (PyStr.strip line1)
               (PyStr.split (PyStr.strip line2))) [] in
  main lm args (Line line1 :: Line line2 :: rest)
  = (banner
       ++ [Prompt "Operation: "; Prompt "Enter numbers separated by space: "]
       ++ fst by_arguments,
     snd by_arguments).
Proof.
  intros Hi Hk Ht Hv. cbv zeta. unfold main.
  rewrite (resolve_interactive_mode _ _ Hi), (resolve_command_line _ _ _ Hk).
  unfold interactive, from_arguments. cbn [input]. rewrite Hk. cbn [negb].
  destruct (PyStr.split (PyStr.strip line2)) as [|tok toks]; [contradiction|].
  destruct (_to_floats (tok :: toks)) as [nums|e] eqn:E.
  - destruct (dispatch lm (PyStr.strip line1) nums) as [out o].
    cbn [fst snd app]. now rewrite <- app_assoc.
  - destruct (to_floats_exn _ _ E) as [[msg ->]|[msg ->]].
    + now destruct (Hv msg).
    + reflexivity.
Qed.

End Modes.

Lemma unknown_operation_exit_2_witness :
  main libm_sample no_arguments [Line " plus "; Line "1 2"]
  = (banner ++ [Prompt "Operation: "; Stdout (Str "Unknown operation")],
     Return 2).
Proof.
  apply (unknown_operation_exit_2 libm_sample no_arguments " plus "
           [Line "1 2"]); reflexivity.
Defined.

Lemma conversion_failure_interactive_witness :
  main libm_sample no_arguments [Line "mul"; Line "2 1,5"]
  = (banner
       ++ [Prompt "Operation: "; Prompt "Enter numbers separated by space: "],
     Uncaught (ValueError "Invalid numeric value: '1,5'"))
  /\ exit_status
       (snd (main libm_sample no_arguments [Line "mul"; Line "2 1,5"])) = 1.
Proof.
  apply (conversion_failure_interactive libm_sample no_arguments "mul" "2 1,5"
           []); reflexivity.
Defined.

Lemma modes_agree_witness :
  main libm_sample no_arguments [Line "sub"; Line " 10  1 2 "]
  = (banner
       ++ [Prompt "Operation: "; Prompt "Enter numbers separated by space: "]
       ++ fst (main libm_sample
                 (command_line "sub" ["10"; "1"; "2"]%string) []),
     snd (main libm_sample (command_line "sub" ["10"; "1"; "2"]%string) [])).
Proof.
  apply (modes_agree libm_sample no_arguments "sub" " 10  1 2 " []);
    [reflexivity|reflexivity|discriminate|discriminate].
Defined.

(** ** Instances of the properties of the first part *)

Lemma invalid_token_argument_mode_witness :
  main libm_sample (command_line "sub" ["1"; "x2"; "y"]%string) []
  = ([Stderr "Invalid numeric value: 'x2'"], Return 2).
Proof.
  apply (invalid_token_argument_mode libm_sample "sub" ["1"%string] "x2"
           ["y"%string] [NInt 1] "invalid literal for int() with base 10: 'x2'");
    [discriminate|reflexivity|reflexivity].
Defined.

Lemma error_on_stderr_but_unknown_witness :
  snd (main libm_sample (command_line "mod" ["1"; "0"]%string) []) = Return 3
  /\ (on_stderr (fst (main libm_sample
                        (command_line "mod" ["1"; "0"]%string) [])) <> []
      \/ (interactive_mode (command_line "mod" ["1"; "0"]%string)
          /\ exists line rest,
              @nil input_event = Line line :: rest
              /\ known (PyStr.strip line) = false)).
Proof.
  split; [reflexivity|].
  apply (error_on_stderr_but_unknown libm_sample
           (command_line "mod" ["1"; "0"]%string) [] 3); [reflexivity|lia].
Defined.

Lemma divide_raises_only_its_own_witness :
  exists e, divide 8 [2; 0; 4]%float = Raise e
            /\ e = ZeroDivisionError "Division by zero".
Proof.
  exists (ZeroDivisionError "Division by zero"). split; [reflexivity|].
  apply (divide_raises_only_its_own 8 [2; 0; 4]%float). reflexivity.
Defined.

(** ** The errors of [modulo] *)

(** X14: [modulo] fails on a zero second value only, and with its own
    message: the test stands before the remainder, whose own error for
    a zero divisor is never raised. *)
Theorem modulo_raises_only_its_own (a b : float) (e : exn) :
  modulo a b = Raise e ->
  zero_valued b /\ e = ZeroDivisionError "Modulo by zero".
Proof.
  unfold modulo, zero_valued. destruct (is_zero b) eqn:Eb.
  - now intros [= <-].
  - destruct (float_rem_ok a b Eb) as [r ->]. discriminate.
Qed.

Lemma modulo_raises_only_its_own_witness :
  modulo 7 (-0) = Raise (ZeroDivisionError "Modulo by zero")
  /\ zero_valued (-0)%float.
Proof.
  split; [reflexivity|].
  apply (modulo_raises_only_its_own 7 (-0) (ZeroDivisionError "Modulo by zero")).
  reflexivity.
Defined.

(** ** Which results are displayed *)

(** X15: a result is displayed exactly when it is finite: then one
    line goes to standard output and [main] returns 0; on an infinity
    or a NaN the display raises, and nothing is written. *)
Theorem display_iff_finite (x : float) :
  if is_finite x
  then exists t, show (VFloat x) = ([Stdout t], Return 0)
  else exists e, show (VFloat x) = ([], Uncaught e).
Proof.
  destruct (is_finite x) eqn:E; [now apply show_finite|].
  unfold is_finite in E. rewrite is_nan_spec, is_infinity_spec in E.
  unfold show, round.
  destruct (Prim2SF x) as [s|s| |s m e]; try discriminate E; cbn [bind]; eauto.
Qed.

(** ** Integers: from the token to the display *)

Module Numerals.

(** *** The decimal numeral of an integer is read back by [int] *)

Lemma digit_char (c : ascii) :
  PyStr.isdigit c = true ->
  PyStr.isspace c = false
  /\ Ascii.eqb c underscore = false
  /\ Ascii.eqb c "-" = false
  /\ Ascii.eqb c "+" = false
  /\ Ascii.eqb "." c = false
  /\ Ascii.eqb "e" (PyStr.to_lower c) = false.
Proof.
  destruct c as [[] [] [] [] [] [] [] []]; vm_compute; intros H;
    try discriminate H; repeat split.
Qed.

Lemma forallb_rev {A : Type} (f : A -> bool) (l : list A) :
  forallb f (rev l) = forallb f l.
Proof.
  induction l as [|a l IH]; [reflexivity|].
  cbn [rev forallb]. rewrite forallb_app, IH. cbn [forallb].
  rewrite andb_true_r. apply andb_comm.
Qed.

Lemma lstrip_no_space (cs : list ascii) :
  forallb (fun c => negb (PyStr.isspace c)) cs = true -> PyStr.lstrip cs = cs.
Proof.
  destruct cs as [|c cs]; [reflexivity|]. cbn [forallb PyStr.lstrip].
  intros H. apply andb_prop in H as [H _].
  now destruct (PyStr.isspace c).
Qed.

Lemma rstrip_no_space (cs : list ascii) :
  forallb (fun c => negb (PyStr.isspace c)) cs = true -> PyStr.rstrip cs = cs.
Proof.
  intros H. unfold PyStr.rstrip.
  rewrite lstrip_no_space by now rewrite forallb_rev.
  apply rev_involutive.
Qed.

Lemma digits_no_space (cs : list ascii) :
  forallb PyStr.isdigit cs = true ->
  forallb (fun c => negb (PyStr.isspace c)) cs = true.
Proof.
  induction cs as [|c cs IH]; [reflexivity|]. cbn [forallb].
  intros H. apply andb_prop in H as [Hc H].
  destruct (digit_char c Hc) as (-> & _). now rewrite IH.
Qed.

Lemma drop_underscores_digits (cs : list ascii) (prev : option ascii) :
  forallb PyStr.isdigit cs = true -> drop_underscores prev cs = Some cs.
Proof.
  revert prev. induction cs as [|c cs IH]; intros prev; [reflexivity|].
  cbn [forallb drop_underscores]. intros H. apply andb_prop in H as [Hc H].
  destruct (digit_char c Hc) as (_ & -> & _). now rewrite IH.
Qed.

Lemma split_sign_digits (cs : list ascii) :
  forallb PyStr.isdigit cs = true -> split_sign cs = (false, cs).
Proof.
  destruct cs as [|c cs]; [reflexivity|]. cbn [forallb split_sign].
  intros H. apply andb_prop in H as [Hc H].
  now destruct (digit_char c Hc) as (_ & _ & -> & -> & _).
Qed.

(** [int] on a run of digits, and on one after a minus sign. *)
Lemma int_of_digits (s : string) :
  chars s <> [] -> forallb PyStr.isdigit (chars s) = true ->
  int_of_string s = Ok (digits_value (chars s))
  /\ int_of_string (String "-" s) = Ok (- digits_value (chars s)).
Proof.
  intros Hne Hd. pose proof (digits_no_space _ Hd) as Hs.
  unfold int_of_string. split.
  - rewrite (lstrip_no_space _ Hs), (rstrip_no_space _ Hs).
    rewrite (split_sign_digits _ Hd), (drop_underscores_digits _ _ Hd), Hd.
    now destruct (chars s).
  - change (chars (String "-" s)) with ("-"%char :: chars s).
    assert (Hs' : forallb (fun c => negb (PyStr.isspace c))
                    ("-"%char :: chars s) = true)
      by (cbn [forallb]; now rewrite Hs).
    rewrite (lstrip_no_space _ Hs'), (rstrip_no_space _ Hs').
    cbn [split_sign]. change (Ascii.eqb "-" "-") with true. cbv iota.
    rewrite (drop_underscores_digits _ _ Hd), Hd.
    now destruct (chars s).
Qed.

(** Neither a point nor an [e]: the token goes to [int]. *)
Lemma digits_not_float (s : string) :
  forallb PyStr.isdigit (chars s) = true ->
  PyStr.contains "." s || PyStr.contains "e" (PyStr.lower s) = false
  /\ PyStr.contains "." (String "-" s)
     || PyStr.contains "e" (PyStr.lower (String "-" s)) = false.
Proof.
  unfold PyStr.contains, PyStr.lower, chars.
  cbn [list_ascii_of_string map].
  rewrite !list_ascii_of_string_of_list_ascii.
  change (PyStr.to_lower "-") with "-"%char.
  cbn [existsb]. change (Ascii.eqb "." "-") with false.
  change (Ascii.eqb "e" "-") with false. cbn [orb].
  intros H.
  assert (A : existsb (Ascii.eqb ".") (list_ascii_of_string s) = false
              /\ existsb (Ascii.eqb "e")
                   (map PyStr.to_lower (list_ascii_of_string s)) = false).
  { induction (list_ascii_of_string s) as [|c cs IH]; [now split|].
    cbn [forallb] in H. apply andb_prop in H as [Hc H].
    destruct (digit_char c Hc) as (_ & _ & _ & _ & Hp & He).
    destruct (IH H) as [IH1 IH2]. cbn [existsb map].
    now rewrite Hp, He, IH1, IH2. }
  destruct A as [-> ->]. now split.
Qed.

Lemma uint_digits (d : Decimal.uint) :
  forallb PyStr.isdigit (chars (NilEmpty.string_of_uint d)) = true.
Proof. induction d; cbn; auto. Qed.

Lemma uint_value_acc (d : Decimal.uint) (acc : positive) :
  fold_left (fun a c => 10 * a + (Z.of_nat (PyStr.code c) - 48))
    (chars (NilEmpty.string_of_uint d)) (Zpos acc)
  = Zpos (Pos.of_uint_acc d acc).
Proof.
  revert acc.
  induction d as [|d IH|d IH|d IH|d IH|d IH|d IH|d IH|d IH|d IH|d IH];
    intros acc; [reflexivity|..];
    cbn [NilEmpty.string_of_uint chars list_ascii_of_string fold_left
           Pos.of_uint_acc];
    rewrite <- IH; f_equal; unfold PyStr.code;
    match goal with
    | |- context [Z.of_nat (nat_of_ascii ?c)] =>
        let v := eval vm_compute in (Z.of_nat (nat_of_ascii c)) in
        change (Z.of_nat (nat_of_ascii c)) with v
    end; lia.
Qed.

Lemma uint_value (d : Decimal.uint) :
  digits_value (chars (NilEmpty.string_of_uint d)) = Z.of_N (Pos.of_uint d).
Proof.
  unfold digits_value.
  induction d as [|d IH|d IH|d IH|d IH|d IH|d IH|d IH|d IH|d IH|d IH];
    [reflexivity|exact IH|..];
    cbn [NilEmpty.string_of_uint chars list_ascii_of_string fold_left
           Pos.of_uint];
    cbn [N.to_nat Z.of_N]; rewrite <- uint_value_acc; reflexivity.
Qed.

Lemma numeral_of_positive (p : positive) :
  let s := NilEmpty.string_of_uint (Pos.to_uint p) in
  NilZero.string_of_uint (Pos.to_uint p) = s
  /\ chars s <> []
  /\ forallb PyStr.isdigit (chars s) = true
  /\ digits_value (chars s) = Zpos p.
Proof.
  cbv zeta. pose proof (Unsigned.to_uint_nonnil p) as Hn.
  split; [|split; [|split]].
  - unfold NilZero.string_of_uint. now destruct (Pos.to_uint p).
  - destruct (Pos.to_uint p); [contradiction|..]; discriminate.
  - apply uint_digits.
  - now rewrite uint_value, DecimalPos.Unsigned.of_to.
Qed.

(** [int(str(z))] is [z], and [str(z)] is a token for [int]. *)
Lemma to_number_of_int (z : Z) : to_number (PyStr.of_int z) = Ok (NInt z).
Proof.
  unfold to_number, PyStr.of_int.
  destruct z as [|p|p]; [reflexivity|..];
    cbn [Z.to_int NilZero.string_of_int];
    destruct (numeral_of_positive p) as (-> & Hne & Hd & Hv);
    destruct (digits_not_float _ Hd) as [F1 F2];
    destruct (int_of_digits _ Hne Hd) as [I1 I2].
  - now rewrite F1, I1, Hv.
  - now rewrite F2, I2, Hv.
Qed.

End Numerals.

(** *** Integers among the floats *)

(** Rounding a value of the format gives that value. *)
Lemma binary_round_representable (s : bool) (M : positive) (E : Z)
    (m : positive) (e : Z) :
  -1074 <= E ->
  bounded prec emax m e = true ->
  scaled M E = scaled m e ->
  binary_round prec emax s M E = S754_finite s m e.
Proof.
  intros HE Hb Heq. pose proof Hb as Hb'.
  apply bounded_spec in Hb' as [C U].
  assert (He : -1074 <= e) by lia.
  assert (Hd : Zpos (digits2_pos M) + E = Zpos (digits2_pos m) + e).
  { apply Z.le_antisymm; apply scaled_le_digits; lia. }
  unfold binary_round.
  pose proof (shl_align_spec M E (fexp prec emax (Zpos (digits2_pos M) + E)))
    as H.
  destruct (shl_align M E _) as [Mz Ez]. rewrite fexp_eq, Hd, C in H.
  destruct H as (Hez & Hmz & Hdz).
  destruct (Z.le_gt_cases e E) as [Hle | Hgt].
  - assert (HEz : Ez = e) by lia. clear Hez. subst Ez.
    assert (Mz = m).
    { unfold scaled in Heq. rewrite (pow_split e E) in Heq by lia.
      rewrite Z.mul_assoc, <- Hmz in Heq.
      apply Z.mul_reg_r in Heq; [lia|].
      apply Z.neq_sym, Z.lt_neq, Z.pow_pos_nonneg; lia. }
    subst Mz. now apply round_valid.
  - assert (HEz : Ez = E) by lia. clear Hez. subst Ez.
    assert (Mz = M) by (rewrite Z.sub_diag in Hmz; cbn in Hmz; lia).
    subst Mz. clear Hmz Hdz.
    destruct (e - E) as [|k|k] eqn:Hk; try lia.
    assert (HM : Zpos M = Zpos m * 2 ^ Zpos k).
    { unfold scaled in Heq. rewrite (pow_split E e) in Heq by lia.
      rewrite Z.mul_assoc, Hk in Heq.
      apply Z.mul_reg_r in Heq; [exact Heq|].
      apply Z.neq_sym, Z.lt_neq, Z.pow_pos_nonneg; lia. }
    unfold binary_round_aux, shr_fexp. cbn [Zdigits2]. rewrite fexp_eq, Hd, C.
    replace (e - E) with (Zpos k) by lia. cbn [shr shr_record_of_loc].
    pose proof (iter_shr_inv (Zpos M) k ltac:(lia) _ 0 ltac:(lia)
                  (shr_inv_start (Zpos M))) as [Hm1 Hbits].
    cbn [Z.add] in Hm1, Hbits.
    set (mrs := iter_pos shr_1 k _) in *. clearbody mrs.
    assert (HK : 0 < 2 ^ Zpos k) by (apply Z.pow_pos_nonneg; lia).
    rewrite HM, Z.div_mul in Hm1 by lia.
    rewrite HM, Z.mod_mul in Hbits by lia.
    destruct mrs as [m0 r0 s0].
    cbn [shr_m shr_r shr_s] in *. subst m0.
    assert (r0 = false /\ s0 = false) as [-> ->].
    { destruct r0, s0; try (now split); exfalso;
        (assert (0 < 0) by (now apply Hbits)); lia. }
    cbn [loc_of_shr_record round_nearest_even Zdigits2].
    rewrite fexp_eq. replace (E + Zpos k) with e by lia.
    rewrite C, Z.sub_diag. cbn [shr shr_record_of_loc shr_m].
    replace (e <=? emax - prec) with true
      by (symmetry; apply Z.leb_le; change (emax - prec) with 971; lia).
    reflexivity.
Qed.

Lemma is_finite_spec (x : float) :
  is_finite x
  = match Prim2SF x with S754_zero _ | S754_finite _ _ _ => true | _ => false end.
Proof.
  unfold is_finite. rewrite is_nan_spec, is_infinity_spec.
  now destruct (Prim2SF x).
Qed.

(** [x - x] is [0.0] for every finite [x]. *)
Lemma float_sub_diag (x : float) : is_finite x = true -> (x - x)%float = 0%float.
Proof.
  rewrite is_finite_spec. intros H. apply Prim2SF_inj. rewrite sub_spec.
  change (Prim2SF 0) with (S754_zero false).
  destruct (Prim2SF x) as [[|]|s| |s m e]; try discriminate H; try reflexivity.
  unfold SF64sub, SFsub. rewrite Z.min_id.
  set (X := cond_Zopp s _). now replace (X - X) with 0 by lia.
Qed.

(** An integer of the format converts to the float it is, and that
    float rounds to it. *)
Lemma integer_of_spec (x : float) (z : Z) :
  integer_of x = Some z -> is_zero x = false ->
  round x = Ok z /\ int_to_float z = Ok x /\ is_finite x = true.
Proof.
  unfold integer_of, round, int_to_float.
  rewrite is_finite_spec, is_zero_spec.
  pose proof (Prim2SF_valid x) as Hv. pose proof (SF2Prim_Prim2SF x) as Hx.
  destruct (Prim2SF x) as [s0|s0| |s m e] eqn:Ex; try discriminate.
  cbn [valid_binary] in Hv. intros H _.
  destruct (bounded_digits _ _ Hv) as [Hm He].
  assert (A : exists P : positive,
             z = cond_Zopp s (Zpos P)
             /\ round_half_even (Zpos m) e = Zpos P
             /\ scaled P 0 = scaled m e).
  { unfold round_half_even, scaled.
    destruct (Z.leb_spec 0 e) as [H0|H0].
    - assert (Hz : z = cond_Zopp s (Zpos m * 2 ^ e)) by congruence.
      clear H. subst z.
      assert (Hp : 0 < Zpos m * 2 ^ e)
        by (apply Z.mul_pos_pos; [lia|apply Z.pow_pos_nonneg; lia]).
      destruct (Zpos m * 2 ^ e) as [|P|P] eqn:EP; try lia.
      exists P. split; [reflexivity|]. split; [reflexivity|].
      rewrite <- EP. change (0 + 1074) with 1074.
      rewrite (Z.pow_add_r 2 e 1074) by lia. ring.
    - assert (HK : 0 < 2 ^ (- e)) by (apply Z.pow_pos_nonneg; lia).
      destruct (Z.eqb_spec (Zpos m mod 2 ^ (- e)) 0) as [Hr|Hr];
        [|discriminate].
      assert (Hz : z = cond_Zopp s (Zpos m / 2 ^ (- e))) by congruence.
      clear H. subst z.
      pose proof (Z.div_mod (Zpos m) (2 ^ (- e)) ltac:(lia)) as Hdm.
      rewrite Hr, Z.add_0_r in Hdm.
      assert (Hq : 0 < Zpos m / 2 ^ (- e)).
      { destruct (Z.lt_trichotomy 0 (Zpos m / 2 ^ (- e))) as [|[Hz|Hz]];
          [assumption|rewrite <- Hz in Hdm; lia|].
        assert (2 ^ (- e) * (Zpos m / 2 ^ (- e)) < 0)
          by (apply Z.mul_pos_neg; lia).
        lia. }
      destruct (Zpos m / 2 ^ (- e)) as [|P|P] eqn:EP; try lia.
      exists P. split; [reflexivity|]. rewrite Hr. change (2 * 0) with 0.
      replace (0 ?= 2 ^ (- e)) with Lt by (symmetry; now apply Z.compare_lt_iff).
      split; [reflexivity|].
      change (0 + 1074) with 1074. rewrite Hdm.
      replace 1074 with (- e + (e + 1074)) at 1 by lia.
      rewrite (Z.pow_add_r 2 (- e) (e + 1074)) by lia. ring. }
  destruct A as (P & -> & Hr & Hs).
  rewrite Hr. split; [reflexivity|].
  rewrite binary_normalize_signed.
  rewrite (binary_round_representable s P 0 m e ltac:(lia) Hv Hs), Hx.
  rewrite is_infinity_spec, Ex. auto.
Qed.

Lemma show_integer_nonzero (x : float) (z : Z) :
  integer_of x = Some z -> is_zero x = false ->
  show (VFloat x) = ([Stdout (Str (PyStr.of_int z))], Return 0).
Proof.
  intros H Ez. destruct (integer_of_spec x z H Ez) as (Hr & Hi & Hf).
  unfold show, sub_int. rewrite Hr. cbn [bind]. rewrite Hi. cbn [bind].
  now rewrite (float_sub_diag x Hf).
Qed.

Lemma integer_of_zero (x : float) (z : Z) :
  integer_of x = Some z -> is_zero x = true ->
  z = 0 /\ (x = 0%float \/ x = PrimFloat.neg_zero).
Proof.
  rewrite is_zero_spec. unfold integer_of.
  destruct (Prim2SF x) as [s0|s0| |s m e] eqn:Ex; try discriminate.
  intros [= <-] _. split; [reflexivity|].
  destruct s0; [right|left]; apply Prim2SF_inj; now rewrite Ex.
Qed.

(** X16: a result that is an integer is displayed as that integer,
    with all its digits, however large it is; so is a zero of either
    sign, as [0]. *)
Theorem integer_displayed_as_integer (x : float) (z : Z) :
  integer_of x = Some z ->
  show (VFloat x) = ([Stdout (Str (PyStr.of_int z))], Return 0).
Proof.
  intros H. destruct (is_zero x) eqn:Ez.
  - destruct (integer_of_zero x z H Ez) as [-> [-> | ->]]; reflexivity.
  - now apply show_integer_nonzero.
Qed.

Lemma integer_displayed_as_integer_witness :
  integer_of 1e22 = Some (10 ^ 22)
  /\ show (VFloat 1e22)
     = ([Stdout (Str "10000000000000000000000")], Return 0).
Proof.
  split; [reflexivity|].
  apply (integer_displayed_as_integer 1e22 (10 ^ 22)). reflexivity.
Defined.

(** Every integer up to [2^53] in magnitude is a float. *)
Lemma int_to_float_exact (z : Z) :
  Z.abs z <= 2 ^ 53 ->
  exists x, int_to_float z = Ok x /\ integer_of x = Some z.
Proof.
  intros Hz.
  destruct (Z.eq_dec (Z.abs z) (2 ^ 53)) as [Habs|Habs].
  { assert (z = 2 ^ 53 \/ z = - 2 ^ 53) as [-> | ->] by lia;
      eexists; split; reflexivity. }
  assert (Hs : forall (s : bool) (p : positive),
             Zpos p < 2 ^ 53 ->
             exists x, int_to_float (cond_Zopp s (Zpos p)) = Ok x
                       /\ integer_of x = Some (cond_Zopp s (Zpos p))).
  { intros s p Hp. unfold int_to_float. rewrite binary_normalize_signed.
    destruct (binary_round_exact s p 0) as (m & e & Hr & Hb & Hsc);
      [now apply digits2_le|lia|].
    rewrite Hr.
    assert (Ex : Prim2SF (SF2Prim (S754_finite s m e)) = S754_finite s m e)
      by now apply Prim2SF_SF2Prim.
    rewrite is_infinity_spec, Ex. eexists. split; [reflexivity|].
    unfold integer_of. rewrite Ex.
    destruct (bounded_digits _ _ Hb) as [_ He].
    unfold scaled in Hsc. change (0 + 1074) with 1074 in Hsc.
    destruct (Z.leb_spec 0 e) as [H0|H0].
    - rewrite (Z.pow_add_r 2 e 1074), Z.mul_assoc in Hsc by lia.
      apply Z.mul_reg_r in Hsc; [|lia]. now rewrite Hsc.
    - assert (HK : 0 < 2 ^ (- e)) by (apply Z.pow_pos_nonneg; lia).
      replace 1074 with (- e + (e + 1074)) in Hsc at 2 by lia.
      rewrite (Z.pow_add_r 2 (- e) (e + 1074)), Z.mul_assoc in Hsc by lia.
      apply Z.mul_reg_r in Hsc;
        [|apply Z.neq_sym, Z.lt_neq, Z.pow_pos_nonneg; lia].
      rewrite Hsc, Z.mod_mul, Z.div_mul by lia. reflexivity. }
  destruct z as [|p|p].
  - exists 0%float. now split.
  - apply (Hs false p). cbn [Z.abs] in *. lia.
  - apply (Hs true p). cbn [Z.abs] in *. lia.
Qed.

Section Echo.

Variable lm : Libm.

(** On a single number, each of [add], [sub], [mul] and [div] returns
    that number; the sum of the negative zero alone is the positive
    zero. *)
Lemma single_operand (op : string) (x : float) :
  In op ["add"; "sub"; "mul"; "div"]%string ->
  x <> PrimFloat.neg_zero ->
  dispatch lm op [x] = show (VFloat x).
Proof.
  intros Hop Hx. cbn [In] in Hop.
  destruct Hop as [<-|[<-|[<-|[<-|[]]]]]; unfold dispatch;
    cbn [lookup OP_MAP find fst snd option_map String.eqb Ascii.eqb Bool.eqb
           arity_complaint one_of List.length Nat.eqb Nat.ltb Nat.leb
           andb orb negb call bind divide divide_loop subtract add multiply
           fold_left].
  - now rewrite (add_0_l x Hx).
  - reflexivity.
  - now rewrite mul_1_l.
  - reflexivity.
Qed.

(** X17: an integer of up to [2^53] in magnitude, given alone to
    [add], [sub], [mul] or [div], comes back as it was written: its
    numeral is converted, the operation returns it, and the display
    prints the same numeral. *)
Theorem single_integer_echo (op : string) (z : Z) (stdin : list input_event) :
  In op ["add"; "sub"; "mul"; "div"]%string ->
  Z.abs z <= 2 ^ 53 ->
  main lm (command_line op [PyStr.of_int z]) stdin
  = ([Stdout (Str (PyStr.of_int z))], Return 0).
Proof.
  intros Hop Hz.
  destruct (int_to_float_exact z Hz) as (x & Hi & Hint).
  assert (Hto : _to_floats [PyStr.of_int z] = Ok [x]).
  { unfold _to_floats. cbn [to_numbers].
    rewrite Numerals.to_number_of_int. cbn [bind floats_of float_of_number].
    now rewrite Hi. }
  assert (Hr : resolve (command_line op [PyStr.of_int z]) stdin
               = ([], Resolved op [x])).
  { unfold resolve, command_line, from_arguments. cbn [operation numbers].
    rewrite Hto.
    cbn [In] in Hop. now destruct Hop as [<-|[<-|[<-|[<-|[]]]]]. }
  rewrite (main_resolved lm _ _ _ _ _ Hr). cbn [app].
  destruct (is_zero x) eqn:Ez.
  - destruct (integer_of_zero x z Hint Ez) as [-> _].
    injection Hi as <-.
    cbn [In] in Hop. now destruct Hop as [<-|[<-|[<-|[<-|[]]]]].
  - rewrite single_operand; [|exact Hop|].
    + now rewrite (show_integer_nonzero x z Hint Ez).
    + intros ->. discriminate Ez.
Qed.

End Echo.

Lemma single_integer_echo_witness :
  main libm_sample (command_line "mul" ["-9007199254740992"%string]) []
  = ([Stdout (Str "-9007199254740992")], Return 0).
Proof.
  apply (single_integer_echo libm_sample "mul" (- 2 ^ 53) []);
    [cbn; tauto|cbn; lia].
Defined.

(** Beyond [2^53] an integer may come back as another one. *)
Example integer_beyond_2_53 :
  main libm_sample (command_line "add" ["9007199254740993"%string]) []
  = ([Stdout (Str "9007199254740992")], Return 0).
Proof. reflexivity. Qed.

(** ** No token is converted to a NaN *)

Module NoNaN.

Lemma shr_1_nonneg (mrs : shr_record) :
  0 <= shr_m mrs -> 0 <= shr_m (shr_1 mrs).
Proof.
  destruct mrs as [[|[p|p|]|p] r s]; cbn [shr_1 shr_m]; lia.
Qed.

Lemma iter_shr_nonneg (p : positive) (mrs : shr_record) :
  0 <= shr_m mrs -> 0 <= shr_m (iter_pos shr_1 p mrs).
Proof.
  revert mrs. induction p as [p IH|p IH|]; intros mrs H; cbn [iter_pos].
  - apply IH, IH. now apply shr_1_nonneg.
  - now apply IH, IH.
  - now apply shr_1_nonneg.
Qed.

Lemma shr_fexp_nonneg (m e : Z) (l : location) :
  0 <= m -> 0 <= shr_m (fst (shr_fexp prec emax m e l)).
Proof.
  intros H. unfold shr_fexp, shr.
  assert (H0 : 0 <= shr_m (shr_record_of_loc m l))
    by (destruct l as [|[| |]]; exact H).
  destruct (fexp prec emax (Zdigits2 m + e) - e); cbn [fst]; try exact H0.
  now apply iter_shr_nonneg.
Qed.

Lemma round_nearest_even_nonneg (m : Z) (l : location) :
  0 <= m -> 0 <= round_nearest_even m l.
Proof.
  intros H. destruct l as [|[| |]]; cbn [round_nearest_even];
    try destruct (Z.even m); lia.
Qed.

(** Rounding a magnitude never gives a NaN. *)
Lemma binary_round_aux_not_nan (s : bool) (m e : Z) (l : location) :
  0 <= m -> binary_round_aux prec emax s m e l <> S754_nan.
Proof.
  intros H. unfold binary_round_aux.
  pose proof (shr_fexp_nonneg m e l H) as H1.
  destruct (shr_fexp prec emax m e l) as [mrs' e']. cbn [fst] in H1.
  pose proof (shr_fexp_nonneg _ e' loc_Exact
                (round_nearest_even_nonneg _ (loc_of_shr_record mrs') H1)) as H2.
  destruct (shr_fexp prec emax _ e' loc_Exact) as [mrs'' e'']. cbn [fst] in H2.
  destruct (shr_m mrs'') as [|q|q]; [discriminate| |lia].
  destruct (e'' <=? emax - prec); discriminate.
Qed.

Lemma binary_round_not_nan (s : bool) (m : positive) (e : Z) :
  binary_round prec emax s m e <> S754_nan.
Proof.
  unfold binary_round. destruct (shl_align m e _) as [mz ez].
  apply binary_round_aux_not_nan. lia.
Qed.

Lemma binary_normalize_not_nan (z e : Z) (szero : bool) :
  binary_normalize prec emax z e szero <> S754_nan.
Proof.
  destruct z as [|p|p]; cbn [binary_normalize];
    [discriminate|apply binary_round_not_nan..].
Qed.

Lemma SFdiv_finite_not_nan (sx sy : bool) (mx my : positive) (ex ey : Z) :
  SFdiv prec emax (S754_finite sx mx ex) (S754_finite sy my ey) <> S754_nan.
Proof.
  cbn [SFdiv]. unfold SFdiv_core_binary.
  set (m' := match _ - _ - _ with Zpos _ => _ | Z0 => _ | Zneg _ => _ end).
  assert (Hm : 0 <= m').
  { unfold m'. destruct (_ - _ - _) as [|k|k]; try lia.
    apply Z.shiftl_nonneg. lia. }
  pose proof (Z_div_mod m' (Zpos my) ltac:(lia)) as Hq.
  destruct (Z.div_eucl m' (Zpos my)) as [q r].
  apply binary_round_aux_not_nan.
  destruct Hq as [Hq Hr]. nia.
Qed.

(** The float of a specification that is no NaN is no NaN, whether
    or not the specification is one of the format. *)
Lemma SF2Prim_not_nan (sf : spec_float) :
  sf <> S754_nan -> is_nan (SF2Prim sf) = false.
Proof.
  intros H. rewrite is_nan_spec.
  destruct sf as [[|]|[|]| |s m e]; try reflexivity; [contradiction|].
  unfold SF2Prim.
  set (f := Z.ldexp _ e).
  assert (Hf : Prim2SF f <> S754_nan).
  { unfold f. rewrite Z_ldexp_spec, of_uint63_spec.
    pose proof (binary_normalize_not_nan
                  (Uint63Axioms.to_Z (Uint63Axioms.of_Z (Zpos m))) 0 false) as Hn.
    destruct (binary_normalize prec emax _ 0 false) as [s0|s0| |s0 m0 e0];
      cbn [SFldexp]; try discriminate; [contradiction|].
    apply binary_round_not_nan. }
  destruct s.
  - rewrite opp_spec. now destruct (Prim2SF f).
  - now destruct (Prim2SF f).
Qed.

Lemma int_to_float_not_nan (z : Z) (x : float) :
  int_to_float z = Ok x -> is_nan x = false.
Proof.
  unfold int_to_float. destruct (is_infinity _); [discriminate|].
  intros [= <-]. apply SF2Prim_not_nan, binary_normalize_not_nan.
Qed.

Lemma decimal_to_float_not_nan (neg : bool) (m e : Z) :
  is_nan (decimal_to_float neg m e) = false.
Proof.
  unfold decimal_to_float. destruct m as [|p|p]; try now destruct neg.
  destruct (0 <=? e); apply SF2Prim_not_nan.
  - apply binary_normalize_not_nan.
  - apply SFdiv_finite_not_nan.
Qed.

(** *** The word [nan] is no token for [float] *)

(** A point, or an [e] of either case: what sends a token to [float]. *)
Lemma mark_char (c : ascii) :
  Ascii.eqb "." c || Ascii.eqb "e" (PyStr.to_lower c) = true ->
  PyStr.isspace c = false
  /\ Ascii.eqb c underscore = false
  /\ Ascii.eqb c "-" = false
  /\ Ascii.eqb c "+" = false
  /\ ~ In (PyStr.to_lower c) ["n"; "a"; "n"]%char.
Proof.
  destruct c as [[] [] [] [] [] [] [] []]; vm_compute; intros H;
    try discriminate H; repeat split; intros [E|[E|[E|[]]]]; discriminate E.
Qed.

Lemma in_lstrip (c : ascii) (cs : list ascii) :
  PyStr.isspace c = false -> In c cs -> In c (PyStr.lstrip cs).
Proof.
  intros Hc. induction cs as [|a cs IH]; [easy|]. cbn [PyStr.lstrip].
  destruct (PyStr.isspace a) eqn:Ea; [|easy].
  intros [->|H]; [congruence|auto].
Qed.

Lemma in_rstrip (c : ascii) (cs : list ascii) :
  PyStr.isspace c = false -> In c cs -> In c (PyStr.rstrip cs).
Proof.
  intros Hc H. unfold PyStr.rstrip. apply -> in_rev.
  apply in_lstrip; [exact Hc|]. now apply -> in_rev.
Qed.

Lemma in_drop_underscores (c : ascii) (cs out : list ascii)
    (prev : option ascii) :
  Ascii.eqb c underscore = false ->
  drop_underscores prev cs = Some out -> In c cs -> In c out.
Proof.
  intros Hc. revert prev out.
  induction cs as [|a cs IH]; intros prev out; [easy|].
  cbn [drop_underscores]. destruct (Ascii.eqb a underscore) eqn:Ea.
  - destruct prev as [p|]; [|discriminate].
    destruct cs as [|n cs']; [discriminate|].
    destruct (PyStr.isdigit p && PyStr.isdigit n); [|discriminate].
    intros Hd [->|H]; [congruence|]. eapply IH; eauto.
  - destruct (drop_underscores (Some a) cs) as [out'|] eqn:Ed; [|discriminate].
    cbn [option_map]. intros [= <-] [->|H]; [now left|right].
    eapply IH; eauto.
Qed.

Lemma in_split_sign (c : ascii) (cs : list ascii) :
  Ascii.eqb c "-" = false -> Ascii.eqb c "+" = false ->
  In c cs -> In c (snd (split_sign cs)).
Proof.
  intros H1 H2. destruct cs as [|a cs]; [easy|]. cbn [split_sign].
  destruct (Ascii.eqb a "-") eqn:Ea.
  { intros [->|H]; [congruence|exact H]. }
  destruct (Ascii.eqb a "+") eqn:Eb; [|easy].
  intros [->|H]; [congruence|exact H].
Qed.

Lemma marked (s : string) :
  PyStr.contains "." s || PyStr.contains "e" (PyStr.lower s) = true ->
  exists c, In c (chars s)
            /\ Ascii.eqb "." c || Ascii.eqb "e" (PyStr.to_lower c) = true.
Proof.
  unfold PyStr.contains, PyStr.lower, chars.
  rewrite list_ascii_of_string_of_list_ascii.
  intros H. apply orb_prop in H as [H|H]; apply existsb_exists in H.
  - destruct H as (c & Hin & Hc). exists c. now rewrite Hc.
  - destruct H as (c' & Hin & Hc). apply in_map_iff in Hin as (c & <- & Hin).
    exists c. rewrite Hc. split; [exact Hin|apply orb_true_r].
Qed.

(** A token that goes to [float] does not come back as a NaN. *)
Lemma float_of_string_not_nan (s : string) (x : float) :
  PyStr.contains "." s || PyStr.contains "e" (PyStr.lower s) = true ->
  float_of_string s = Ok x -> is_nan x = false.
Proof.
  intros Hm. apply marked in Hm as (c & Hin & Hc).
  destruct (mark_char c Hc) as (Hsp & Hu & Hmi & Hpl & Hnan).
  unfold float_of_string.
  destruct (drop_underscores None (chars s)) as [cs|] eqn:Ed; [|discriminate].
  pose proof (in_drop_underscores c _ _ _ Hu Ed Hin) as Hcs.
  pose proof (in_split_sign c _ Hmi Hpl
                (in_rstrip c _ Hsp (in_lstrip c _ Hsp Hcs))) as Hb.
  destruct (split_sign _) as [neg body]. cbn [snd] in Hb.
  destruct (String.eqb _ "inf" || String.eqb _ "infinity");
    [intros [= <-]; now destruct neg|].
  destruct (String.eqb_spec (string_of_list_ascii (map PyStr.to_lower body))
              "nan") as [E|_].
  - exfalso. apply Hnan.
    apply (f_equal list_ascii_of_string) in E.
    rewrite list_ascii_of_string_of_list_ascii in E. cbn in E.
    rewrite <- E. now apply in_map.
  - destruct (scan_decimal body) as [[m e]|]; [|discriminate].
    intros [= <-]. apply decimal_to_float_not_nan.
Qed.

Lemma converts_not_nan (s : string) (n : number) (x : float) :
  to_number s = Ok n -> float_of_number n = Ok x -> is_nan x = false.
Proof.
  unfold to_number.
  destruct (PyStr.contains "." s || PyStr.contains "e" (PyStr.lower s)) eqn:Em.
  - destruct (float_of_string s) as [y|] eqn:Ef; [|discriminate].
    cbn [bind]. intros [= <-]. cbn [float_of_number]. intros [= <-].
    now apply (float_of_string_not_nan s).
  - destruct (int_of_string s) as [z|]; [|discriminate].
    cbn [bind]. intros [= <-]. cbn [float_of_number].
    apply int_to_float_not_nan.
Qed.

End NoNaN.

(** X18: no token is converted to a NaN.  The words [nan], [inf] and
    [infinity], which [float] accepts, have neither a point nor an [e]:
    they go to [int], which refuses them. *)
Theorem to_floats_never_nan (strs : list string) (nums : list float) :
  _to_floats strs = Ok nums -> Forall (fun x => is_nan x = false) nums.
Proof.
  unfold _to_floats.
  destruct (to_numbers strs) as [ns|e] eqn:E; cbn [bind]; [|discriminate].
  intros H. apply to_numbers_forall2 in E. apply floats_of_forall2 in H.
  revert nums H.
  induction E as [|s n strs ns Hs _ IH]; intros nums H;
    inversion H as [|? x ? xs Hx Hxs]; subst; constructor.
  - exact (NoNaN.converts_not_nan s n x Hs Hx).
  - now apply IH.
Qed.

Lemma to_floats_never_nan_witness :
  _to_floats ["1e999"; "-.5"; "7"]%string = Ok [infinity; -0.5; 7]%float
  /\ Forall (fun x => is_nan x = false) [infinity; -0.5; 7]%float.
Proof.
  split; [reflexivity|].
  apply (to_floats_never_nan ["1e999"; "-.5"; "7"]%string). reflexivity.
Defined.

(** The three words are refused, in either mode. *)
Example nan_is_no_token :
  _to_floats ["nan"%string]
  = Raise (ValueError "Invalid numeric value: 'nan'")
  /\ _to_floats ["inf"%string]
     = Raise (ValueError "Invalid numeric value: 'inf'")
  /\ _to_floats ["-Infinity"%string]
     = Raise (ValueError "Invalid numeric value: '-Infinity'").
Proof. repeat split. Qed.

(** ** Integers beyond the floats *)




Section Overflow.

Variable lm : Libm.


End Overflow.


(** ** A complex power *)

Section ComplexPower.

Variable lm : Libm.

(** X20: [pow] of a finite negative base and a finite exponent that is
    no integer is a complex number, unless the C library reports an
    error.  The display, which stands outside the [try], rounds it:
    the [TypeError] of that leaves [main], nothing is written, and the
    process ends with status 1. *)
Theorem complex_power_uncaught (base exponent re im : float) :
  is_finite base = true -> is_finite exponent = true ->
  (base <? 0)%float = true ->
  (exponent =? floor exponent)%float = false ->
  cpow lm base exponent = Ok (re, im) ->
  power lm base exponent = Ok (VComplex re im)
  /\ dispatch lm "pow" [base; exponent]
     = ([], Uncaught (TypeError "type complex doesn't define __round__ method")).
Proof.
  intros Hb He Hneg Hfrac Hc.
  assert (Hp : power lm base exponent = Ok (VComplex re im)).
  { unfold power, float_pow.
    rewrite is_finite_spec in Hb, He.
    assert (Hzw : is_zero exponent = false).
    { destruct (is_zero exponent) eqn:Ez; [|reflexivity].
      rewrite is_zero_spec in Ez. rewrite FloatAxioms.eqb_spec in Hfrac.
      unfold floor in Hfrac.
      destruct (Prim2SF exponent) as [s| | |] eqn:Ex; try discriminate Ez.
      rewrite Ex in Hfrac. now destruct s. }
    assert (Hzv : is_zero base = false).
    { rewrite is_zero_spec. rewrite ltb_zero_spec in Hneg.
      now destruct (Prim2SF base). }
    rewrite Hzw, Hzv, !is_nan_spec, !is_infinity_spec.
    destruct (Prim2SF base) as [sb|sb| |sb mb eb]; try discriminate Hb;
      destruct (Prim2SF exponent) as [se|se| |se me ee]; try discriminate He;
      rewrite Hneg, Hfrac, Hc; reflexivity. }
  split; [exact Hp|].
  unfold dispatch.
  change (lookup "pow") with (Some (Power, "Raise first number to the power of the second"%string)).
  change (arity_complaint "pow" (List.length [base; exponent])) with (@None string).
  cbn [call]. now rewrite Hp.
Qed.

End ComplexPower.

Lemma complex_power_uncaught_witness :
  power libm_sample (-8) 0.5 = Ok (VComplex nan nan)
  /\ dispatch libm_sample "pow" [-8; 0.5]%float
     = ([], Uncaught (TypeError "type complex doesn't define __round__ method")).
Proof.
  apply (complex_power_uncaught libm_sample (-8) 0.5 nan nan); reflexivity.
Defined.

(** ** What a run writes, and what leaves it *)

Section Runs.

Variable lm : Libm.

Lemma show_exn (x : float) (e : exn) :
  snd (show (VFloat x)) = Uncaught e ->
  (exists msg, e = ValueError msg) \/ (exists msg, e = OverflowError msg).
Proof.
  unfold show, round, sub_int, int_to_float.
  destruct (Prim2SF x) as [s|s| |s m ex]; cbn [bind];
    try (intros [= <-]; eauto; fail).
  - destruct (is_infinity _); cbn [bind].
    + intros [= <-]. eauto.
    + destruct (abs _ <? 1e-12)%float; discriminate.
  - destruct (is_infinity _); cbn [bind].
    + intros [= <-]. eauto.
    + destruct (abs _ <? 1e-12)%float; discriminate.
Qed.

Lemma show_one_line (v : value) :
  match snd (show v) with
  | Return c => c = 0 /\ exists t, fst (show v) = [Stdout t]
  | Uncaught _ => fst (show v) = []
  end.
Proof.
  unfold show. destruct v as [x|re im]; [|reflexivity].
  destruct (n <- round x ;; d <- sub_int x n ;; Ok (n, d)) as [[n d]|e];
    [|reflexivity].
  destruct (abs d <? 1e-12)%float; cbn [fst snd]; eauto.
Qed.

Lemma dispatch_one_line (op : string) (nums : list float) :
  match snd (dispatch lm op nums) with
  | Return c =>
      (c = 0 /\ exists t, fst (dispatch lm op nums) = [Stdout t])
      \/ (c <> 0 /\ exists s, fst (dispatch lm op nums) = [Stderr s])
  | Uncaught _ => fst (dispatch lm op nums) = []
  end.
Proof.
  unfold dispatch. destruct (lookup op) as [[f desc]|]; [|reflexivity].
  destruct (arity_complaint op (List.length nums)); cbn [fst snd];
    [right; split; [lia|eauto]|].
  destruct (call lm f nums) as [result|[]]; cbn [fst snd];
    try (right; split; [lia|eauto]); try reflexivity.
  pose proof (show_one_line result) as H.
  destruct (snd (show result)); [left|]; exact H.
Qed.

(** X21: started with an operation, a run writes exactly one line: the
    result on standard output, with code 0, or a message on standard
    error, with another code.  It writes no prompt; and when an
    exception leaves [main], nothing has been written. *)
Theorem one_line_per_run (op : string) (tokens : list string)
    (stdin : list input_event) :
  op <> EmptyString ->
  let run := main lm (command_line op tokens) stdin in
  match snd run with
  | Return c =>
      (c = 0 /\ exists t, fst run = [Stdout t])
      \/ (c <> 0 /\ exists s, fst run = [Stderr s])
  | Uncaught _ => fst run = []
  end.
Proof.
  intros Hop. cbv zeta. unfold main, resolve, command_line, from_arguments.
  cbn [operation numbers].
  destruct (String.eqb_spec op EmptyString) as [E|_]; [contradiction|].
  destruct tokens as [|tok toks]; cbn [fst snd]; [right; split; [lia|eauto]|].
  destruct (_to_floats (tok :: toks)) as [nums|[]]; cbn [fst snd];
    try (right; split; [lia|eauto]); try reflexivity.
  pose proof (dispatch_one_line op nums) as H.
  destruct (dispatch lm op nums) as [out o]. exact H.
Qed.

Lemma resolve_known (args : Namespace) (stdin : list input_event)
    (out : list event) (op : string) (nums : list float) :
  interactive_mode args
  \/ (exists op', operation args = Some op' /\ known op' = true) ->
  resolve args stdin = (out, Resolved op nums) -> known op = true.
Proof.
  intros Hmode.
  assert (Hi : interactive stdin = (out, Resolved op nums) -> known op = true).
  { unfold interactive.
    destruct stdin as [|[line| |] rest]; cbn [input interactive_except];
      try discriminate.
    destruct (known (PyStr.strip line)) eqn:Hk; cbn [negb]; [|discriminate].
    destruct rest as [|[line2| |] rest']; cbn [input interactive_except];
      try discriminate.
    destruct (_to_floats _) as [nums'|e].
    - now intros [= _ <- _].
    - destruct e; cbn [interactive_except]; discriminate. }
  destruct Hmode as [Hm | (op' & Hop & Hk)].
  - now rewrite (resolve_interactive_mode _ _ Hm).
  - unfold resolve. rewrite Hop.
    destruct (String.eqb op' EmptyString); [exact Hi|].
    unfold from_arguments. destruct (numbers args) as [|tok toks]; [discriminate|].
    destruct (_to_floats (tok :: toks)) as [nums'|[]]; try discriminate.
    now intros [= _ <- _].
Qed.

Lemma resolve_exn (args : Namespace) (stdin : list input_event)
    (out : list event) (e : exn) :
  resolve args stdin = (out, Over (Uncaught e)) ->
  (exists msg, e = ValueError msg) \/ (exists msg, e = OverflowError msg).
Proof.
  assert (Hi : interactive stdin = (out, Over (Uncaught e)) ->
               (exists msg, e = ValueError msg)
               \/ (exists msg, e = OverflowError msg)).
  { unfold interactive.
    destruct stdin as [|[line| |] rest]; cbn [input interactive_except];
      try discriminate.
    destruct (known (PyStr.strip line)); cbn [negb]; [|discriminate].
    destruct rest as [|[line2| |] rest']; cbn [input interactive_except];
      try discriminate.
    destruct (_to_floats _) as [nums'|e'] eqn:Et; [discriminate|].
    destruct (to_floats_exn _ _ Et) as [[msg ->]|[msg ->]];
      cbn [interactive_except]; intros [= _ <-]; eauto. }
  unfold resolve. destruct (operation args) as [op|]; [|exact Hi].
  destruct (String.eqb op EmptyString); [exact Hi|].
  unfold from_arguments. destruct (numbers args) as [|tok toks]; [discriminate|].
  destruct (_to_floats (tok :: toks)) as [nums'|e'] eqn:Et; [discriminate|].
  destruct (to_floats_exn _ _ Et) as [[msg ->]|[msg ->]]; [discriminate|].
  intros [= _ <-]. eauto.
Qed.

(** X22: the exceptions that leave [main].  In an interactive session,
    or with an operation of the registry, they are a [ValueError] (a
    token that is no number, in an interactive session; a NaN to
    display), an [OverflowError] (an integer token beyond the floats; an
    infinity to display), the [TypeError] of a complex number to
    display, and an interrupt of the computation.  The look-up of the
    operation never fails: no [KeyError] leaves [main]. *)
Theorem uncaught_exceptions (args : Namespace) (stdin : list input_event)
    (e : exn) :
  interactive_mode args
  \/ (exists op, operation args = Some op /\ known op = true) ->
  snd (main lm args stdin) = Uncaught e ->
  (exists msg, e = ValueError msg)
  \/ (exists msg, e = OverflowError msg)
  \/ e = TypeError "type complex doesn't define __round__ method"
  \/ e = KeyboardInterrupt.
Proof.
  intros Hmode. unfold main.
  destruct (resolve args stdin) as [out [op nums|o]] eqn:Hr.
  - pose proof (resolve_known _ _ _ _ _ Hmode Hr) as Hk.
    unfold dispatch, known in *.
    destruct (lookup op) as [[f desc]|]; [|discriminate].
    destruct (arity_complaint op (List.length nums)); [discriminate|].
    destruct (call lm f nums) as [[x|re im]|[]]; cbn [snd];
      try discriminate; try (intros [= <-]; auto; fail).
    intros H.
    assert (H' : snd (show (VFloat x)) = Uncaught e)
      by (destruct (show (VFloat x)); exact H).
    destruct (show_exn x e H') as [?|?]; auto.
  - cbn [snd]. intros ->. apply resolve_exn in Hr. tauto.
Qed.

End Runs.

Lemma one_line_per_run_witness :
  let run := main libm_sample (command_line "div" ["1"; "3"]%string) [] in
  match snd run with
  | Return c =>
      (c = 0 /\ exists t, fst run = [Stdout t])
      \/ (c <> 0 /\ exists s, fst run = [Stderr s])
  | Uncaught _ => fst run = []
  end.
Proof.
  apply (one_line_per_run libm_sample "div" ["1"; "3"]%string []).
  discriminate.
Defined.

Lemma uncaught_exceptions_witness :
  snd (main libm_sample no_arguments [Line "sub"; Line "1e999 1e999"])
  = Uncaught (ValueError "cannot convert float NaN to integer")
  /\ ((exists msg, ValueError "cannot convert float NaN to integer"
                   = ValueError msg)
      \/ (exists msg, ValueError "cannot convert float NaN to integer"
                      = OverflowError msg)
      \/ ValueError "cannot convert float NaN to integer"
         = TypeError "type complex doesn't define __round__ method"
      \/ ValueError "cannot convert float NaN to integer" = KeyboardInterrupt).
Proof.
  split; [reflexivity|].
  apply (uncaught_exceptions libm_sample no_arguments
           [Line "sub"; Line "1e999 1e999"]);
    [left; exact I|reflexivity].
Defined.

(** ** The remainder of an infinity *)

Section InfiniteRemainder.

Variable lm : Libm.

(** X23: the remainder of an infinite first value by a second value
    other than zero is a NaN, whatever that second value is.  [main]
    cannot display it: the [ValueError] of [round] leaves [main], and
    nothing is written. *)
Theorem modulo_of_infinity (a b : float) :
  is_infinity a = true -> is_zero b = false ->
  (exists r, modulo a b = Ok r /\ is_nan r = true)
  /\ dispatch lm "mod" [a; b]
     = ([], Uncaught (ValueError "cannot convert float NaN to integer")).
Proof.
  intros Ha Hb.
  assert (Hm : fmod a b = nan).
  { unfold fmod. rewrite is_infinity_spec in Ha.
    destruct (Prim2SF a) as [s|s| |s m e]; try discriminate Ha.
    now destruct (Prim2SF b). }
  assert (Hr : exists r, modulo a b = Ok r /\ Prim2SF r = S754_nan).
  { unfold modulo, float_rem. rewrite Hb, Hm.
    change (negb (is_zero nan)) with true. change (nan <? 0)%float with false.
    cbv iota. destruct (xorb (b <? 0)%float false).
    - eexists. split; [reflexivity|]. rewrite add_spec.
      change (Prim2SF nan) with S754_nan. reflexivity.
    - eexists. split; reflexivity. }
  destruct Hr as (r & Hmod & Hnan). split.
  - exists r. split; [exact Hmod|]. now rewrite is_nan_spec, Hnan.
  - unfold dispatch.
    change (lookup "mod")
      with (Some (Modulo, "Modulo (remainder) of two numbers"%string)).
    change (arity_complaint "mod" (List.length [a; b])) with (@None string).
    cbn [call]. rewrite Hmod. cbn [bind]. unfold show, round.
    now rewrite Hnan.
Qed.

End InfiniteRemainder.

Lemma modulo_of_infinity_witness :
  (exists r, modulo infinity 3 = Ok r /\ is_nan r = true)
  /\ main libm_sample (command_line "mod" ["1e999"; "3"]%string) []
     = ([], Uncaught (ValueError "cannot convert float NaN to integer")).
Proof.
  apply (modulo_of_infinity libm_sample infinity 3); reflexivity.
Defined.
